(** * TradesService: publication of trade offers

    A shallow embedding of the bot's [TradesService] (the trades service of
    the bot application): the projection of an offer to its published
    snapshot ([mapOffer]), the choice of the published event and the
    publish-then-mark protocol ([publishOffer]), the sweep worker
    ([ensureOfferPublished]), the debounced sweep ([ensurePollData]) and the
    API operations ([getTrade], [createTrade], [acceptConfirmation],
    [removeTrade]).

    Promises are modelled by their settlement: an asynchronous operation is a
    function from the state of the world to a settled value, the next state
    and the list of calls it made to its collaborators. *)

From stdpp Require Import gmap strings list fin_maps.
From Stdlib Require Import ZArith Lia.

Local Open Scope string_scope.
Local Open Scope Z_scope.

(** ** Data model *)

(** Modelled from the spec: the closed enumeration of offer states of the
    session engine (the engine package's [ETradeOfferState] is not part of
    the sources). The numeric codes are the ones the engine package declares;
    the service only relies on them being numbers different from zero. *)
Inductive ETradeOfferState : Type :=
| Invalid
| Active
| Accepted
| Countered
| Expired
| Canceled
| Declined
| InvalidItems
| CreatedNeedsConfirmation
| CanceledBySecondFactor
| InEscrow.

#[global] Instance ETradeOfferState_eq_dec : EqDecision ETradeOfferState.
Proof. solve_decision. Defined.

Definition state_code (s : ETradeOfferState) : Z :=
  match s with
  | Invalid => 1
  | Active => 2
  | Accepted => 3
  | Countered => 4
  | Expired => 5
  | Canceled => 6
  | Declined => 7
  | InvalidItems => 8
  | CreatedNeedsConfirmation => 9
  | CanceledBySecondFactor => 10
  | InEscrow => 11
  end.

(** [a === b] on two state numbers. *)
Definition state_eqb (a b : ETradeOfferState) : bool :=
  state_code a =? state_code b.

(** [x === y] where either side may be [null] or [undefined]. *)
Definition opt_state_eqb (x y : option ETradeOfferState) : bool :=
  match x, y with
  | Some a, Some b => state_eqb a b
  | None, None => true
  | _, _ => false
  end.

(** The truth value of [oldState] in [if (oldState)]: [null] is false, a
    number is true unless it is zero. *)
Definition truthy (x : option ETradeOfferState) : bool :=
  match x with
  | None => false
  | Some s => negb (state_code s =? 0)
  end.

(** An item of an offer, as far as the service looks at it. *)
Record Item : Type := mkItem {
  appid : Z;
  contextid : string;
  assetid : string
}.

(** Modelled from the spec: the engine's confirmation methods (the engine
    package's enumeration is not part of the sources). *)
Inductive EConfirmationMethod : Type :=
| ConfirmNone
| ConfirmEmail
| ConfirmMobileApp.

(** The engine's offer object. Dates are their [getTime()] value, an integer
    number of milliseconds; [partner] is the partner's [getSteamID64()] and
    [glitched] the value of [isGlitched()]. *)
Record Offer : Type := mkOffer {
  o_partner : string;
  o_id : string;
  o_message : string;
  o_state : ETradeOfferState;
  o_itemsToGive : list Item;
  o_itemsToReceive : list Item;
  o_glitched : bool;
  o_isOurOffer : bool;
  o_created : Z;
  o_updated : Z;
  o_expires : Z;
  o_tradeID : option string;
  o_fromRealTimeTrade : bool;
  o_confirmationMethod : EConfirmationMethod;
  o_escrowEnds : option Z
}.

(** The published snapshot of an offer ([TradeOffer] of the bot's data
    package). *)
Record TradeOffer : Type := mkTradeOffer {
  partner : string;
  id : string;
  message : string;
  state : ETradeOfferState;
  itemsToGive : list Item;
  itemsToReceive : list Item;
  isGlitched : bool;
  isOurOffer : bool;
  createdAt : Z;
  updatedAt : Z;
  expiresAt : Z;
  tradeID : option string;
  fromRealTimeTrade : bool;
  confirmationMethod : EConfirmationMethod;
  escrowEndsAt : option Z
}.

(** [Math.floor(d.getTime() / 1000)]. *)
Definition epoch_seconds (ms : Z) : Z := ms / 1000.

Definition mapOffer (offer : Offer) : TradeOffer :=
  {| partner := o_partner offer;
     id := o_id offer;
     message := o_message offer;
     state := o_state offer;
     itemsToGive := o_itemsToGive offer;
     itemsToReceive := o_itemsToReceive offer;
     isGlitched := o_glitched offer;
     isOurOffer := o_isOurOffer offer;
     createdAt := epoch_seconds (o_created offer);
     updatedAt := epoch_seconds (o_updated offer);
     expiresAt := epoch_seconds (o_expires offer);
     tradeID := o_tradeID offer;
     fromRealTimeTrade := o_fromRealTimeTrade offer;
     confirmationMethod := o_confirmationMethod offer;
     escrowEndsAt :=
       match o_escrowEnds offer with
       | None => None
       | Some ms => Some (epoch_seconds ms)
       end |}.

(** The three events of the outward channel with their payloads. *)
Inductive Event : Type :=
| trades_received (offer : TradeOffer)
| trades_sent (offer : TradeOffer)
| trades_changed (offer : TradeOffer) (oldState : option ETradeOfferState).

Definition event_offer (e : Event) : TradeOffer :=
  match e with
  | trades_received o => o
  | trades_sent o => o
  | trades_changed o _ => o
  end.

(** ** Errors and settled promises *)

(** A JavaScript [Error] as the engine hands it to a callback. *)
Record JsError : Type := mkError {
  err_message : string;
  err_eresult : option Z
}.

(** What a promise of the service can be rejected with. *)
Inductive Exn : Type :=
| BadRequestException (msg : string)
| NotFoundException (msg : string)
| EResultException (msg : string) (eresult : Z)
| RawError (e : JsError).

Inductive Settled (A : Type) : Type :=
| Resolved (a : A)
| Rejected (e : Exn).
Arguments Resolved {A} a.
Arguments Rejected {A} e.

(** ** The world around the service *)

(** The data the service keeps per offer in the engine's poll data. *)
Record TradeOfferData : Type := mkData {
  published : option ETradeOfferState
}.

(** The engine's durable poll data: the last seen state of every offer we
    sent and of every offer we received, and the per-offer data. *)
Record PollData : Type := mkPollData {
  sent : gmap string ETradeOfferState;
  received : gmap string ETradeOfferState;
  offerData : option (gmap string TradeOfferData)
}.

Record CreateTradeDto : Type := mkDto {
  dto_partner : string;
  dto_token : option string;
  dto_message : option string;
  dto_itemsToGive : list Item;
  dto_itemsToReceive : list Item
}.

(** The collaborators of the service. [steam] is what [manager.getOffer]
    answers for an id (no entry: the engine's "NoMatch" error); [channel n]
    is the outcome of the [n]-th call of [eventsService.publish] ([None]: the
    event is published); the other fields are the answers of [offer.cancel],
    [offer.send] and [community.acceptConfirmationForObject]. *)
Record World : Type := mkWorld {
  pollData : PollData;
  steam : gmap string (JsError + Offer);
  channel : nat -> option JsError;
  attempts : nat;
  cancel_reply : Offer -> JsError + Offer;
  send_reply : CreateTradeDto -> JsError + Offer;
  confirm_reply : string -> option JsError
}.

Definition set_pollData (pd : PollData) (w : World) : World :=
  {| pollData := pd; steam := steam w; channel := channel w;
     attempts := attempts w; cancel_reply := cancel_reply w;
     send_reply := send_reply w; confirm_reply := confirm_reply w |}.

Definition set_attempts (n : nat) (w : World) : World :=
  {| pollData := pollData w; steam := steam w; channel := channel w;
     attempts := n; cancel_reply := cancel_reply w;
     send_reply := send_reply w; confirm_reply := confirm_reply w |}.

Inductive LogLevel : Type := LvlLog | LvlDebug | LvlWarn | LvlError.

(** The calls the service makes to its collaborators. A log entry keeps the
    fixed text of the message and the error it was formatted from. *)
Inductive Action : Type :=
| CallPublish (e : Event) (ok : bool)
| CallGetOffer (offer_id : string)
| CallCancel (offer_id : string)
| CallSend (dto : CreateTradeDto)
| CallAcceptConfirmation (offer_id : string)
| CallDoPoll
| Log (lvl : LogLevel) (text : string) (cause : option Exn).

Definition is_publish (a : Action) : bool :=
  match a with CallPublish _ _ => true | _ => false end.

Definition is_fetch (a : Action) : bool :=
  match a with CallGetOffer _ => true | _ => false end.

Definition is_cancel (a : Action) : bool :=
  match a with CallCancel _ => true | _ => false end.

(** ** Promises *)

Definition Promise (A : Type) : Type :=
  World -> Settled A * World * list Action.

Definition resolve {A} (a : A) : Promise A :=
  fun w => (Resolved a, w, []).

Definition reject {A} (e : Exn) : Promise A :=
  fun w => (Rejected e, w, []).

(** [await p] followed by [k], or [p.then(k)]. *)
Definition and_then {A B} (p : Promise A) (k : A -> Promise B) : Promise B :=
  fun w =>
    match p w with
    | (Resolved a, w1, t1) =>
        match k a w1 with
        | (r, w2, t2) => (r, w2, (t1 ++ t2)%list)
        end
    | (Rejected e, w1, t1) => (Rejected e, w1, t1)
    end.

(** [p.catch(h)]. *)
Definition catch {A} (p : Promise A) (h : Exn -> Promise A) : Promise A :=
  fun w =>
    match p w with
    | (Resolved a, w1, t1) => (Resolved a, w1, t1)
    | (Rejected e, w1, t1) =>
        match h e w1 with
        | (r, w2, t2) => (r, w2, (t1 ++ t2)%list)
        end
    end.

Notation "x <~ p ;; k" := (and_then p (fun x => k))
  (at level 100, p at next level, k at level 200, right associativity).

Definition settled {A} (r : Settled A * World * list Action) : Settled A :=
  r.1.1.
Definition world_after {A} (r : Settled A * World * list Action) : World :=
  r.1.2.
Definition calls {A} (r : Settled A * World * list Action) : list Action :=
  r.2.

Definition logger (lvl : LogLevel) (text : string) (cause : option Exn)
  : Promise unit :=
  fun w => (Resolved tt, w, [Log lvl text cause]).

(** ** The engine and the channel *)

(** [eventsService.publish(name, payload)]: the next outcome of the
    channel. *)
Definition eventsService_publish (e : Event) : Promise unit :=
  fun w =>
    let w' := set_attempts (S (attempts w)) w in
    match channel w (attempts w) with
    | None => (Resolved tt, w', [CallPublish e true])
    | Some err => (Rejected (RawError err), w', [CallPublish e false])
    end.

(** What the engine answers to the full fetch of [offer_id]: the offer or
    error it holds for the id, "NoMatch" for an id it does not know. *)
Definition fetch_reply (w : World) (offer_id : string) : JsError + Offer :=
  match steam w !! offer_id with
  | Some r => r
  | None => inl (mkError "NoMatch" None)
  end.

(** [manager.getOffer(id, callback)]: the arguments of the callback. *)
Definition manager_getOffer (offer_id : string) : Promise (JsError + Offer) :=
  fun w => (Resolved (fetch_reply w offer_id), w, [CallGetOffer offer_id]).

(** Modelled from the spec: the engine's durable marker store, read and
    written by offer id ([offer.data(key)] and [offer.data(key, value)] of the
    engine package, which keeps the values in [pollData.offerData]). *)
Definition read_published (pd : PollData) (offer_id : string)
  : option ETradeOfferState :=
  match offerData pd with
  | None => None
  | Some od =>
      match od !! offer_id with
      | None => None
      | Some d => published d
      end
  end.

Definition write_published (pd : PollData) (offer_id : string)
    (s : ETradeOfferState) : PollData :=
  {| sent := sent pd;
     received := received pd;
     offerData :=
       Some (<[offer_id := mkData (Some s)]> (default ∅ (offerData pd))) |}.

(** [offer.data('published')]. *)
Definition offer_data (offer : Offer) : Promise (option ETradeOfferState) :=
  fun w => (Resolved (read_published (pollData w) (o_id offer)), w, []).

(** [offer.data('published', value)]. *)
Definition offer_data_set (offer : Offer) (value : ETradeOfferState)
  : Promise unit :=
  fun w =>
    (Resolved tt,
     set_pollData (write_published (pollData w) (o_id offer) value) w, []).

(** ** Publishing an offer *)

(** The inner [publish] of [publishOffer]: which event goes out. *)
Definition publish (offer : Offer) (oldState : option ETradeOfferState)
  : Promise unit :=
  if truthy oldState then
    eventsService_publish (trades_changed (mapOffer offer) oldState)
  else if negb (o_isOurOffer offer) then
    if state_eqb (o_state offer) Active then
      eventsService_publish (trades_received (mapOffer offer))
    else
      eventsService_publish (trades_changed (mapOffer offer) None)
  else if state_eqb (o_state offer) CreatedNeedsConfirmation then
    eventsService_publish (trades_sent (mapOffer offer))
  else if state_eqb (o_state offer) Active
          && (length (o_itemsToGive offer) =? 0)%nat then
    eventsService_publish (trades_sent (mapOffer offer))
  else
    eventsService_publish (trades_changed (mapOffer offer) None).

Definition publishOffer (offer : Offer) (oldState : option ETradeOfferState)
  : Promise unit :=
  catch
    (_ <~ publish offer oldState ;;
     offer_data_set offer (o_state offer))
    (fun err => logger LvlWarn "Error publishing offer: " (Some err)).

(** ** The sweep worker *)

Record EnsureOfferPublishedTask : Type := mkTask {
  task_id : string
}.

(** [a ?? b]. *)
Definition nullish {A} (a b : option A) : option A :=
  match a with Some x => Some x | None => b end.

Definition _getTrade (offer_id : string) : Promise Offer :=
  r <~ manager_getOffer offer_id ;;
  match r with
  | inl err =>
      if String.eqb (err_message err) "NoMatch" then
        reject (BadRequestException "Trade offer not found")
      else
        reject (RawError err)
  | inr offer => resolve offer
  end.

(** The first check of [ensureOfferPublished], on the poll data alone:
    [true] when the offer was already published. *)
Definition already_published (pd : PollData) (offer_id : string) : bool :=
  let currentState := nullish (sent pd !! offer_id) (received pd !! offer_id) in
  match currentState with
  | Some c =>
      let pollDataOfferData := default ∅ (offerData pd) in
      let offerData := pollDataOfferData !! offer_id in
      let publishedState :=
        match offerData with Some d => published d | None => None end in
      opt_state_eqb (Some c) publishedState
  | None => false
  end.

Definition ensureOfferPublished (task : EnsureOfferPublishedTask)
  : Promise unit :=
  fun w =>
    let offer_id := task_id task in
    if already_published (pollData w) offer_id then
      resolve tt w
    else
      (offer <~ _getTrade offer_id ;;
       publishedState <~ offer_data offer ;;
       if opt_state_eqb (Some (o_state offer)) publishedState then
         resolve tt
       else
         publishOffer offer publishedState) w.

(** ** Live notifications *)

(** The engine's live callbacks the constructor subscribes to. A changed
    offer comes with the state it had before. *)
Inductive LiveNotification : Type :=
| newOffer (offer : Offer)
| sentOfferChanged (offer : Offer) (oldState : ETradeOfferState)
| receivedOfferChanged (offer : Offer) (oldState : ETradeOfferState).

Definition live_offer (n : LiveNotification) : Offer :=
  match n with
  | newOffer o => o
  | sentOfferChanged o _ => o
  | receivedOfferChanged o _ => o
  end.

(** The prior state the handler hands to [publishOffer]. *)
Definition live_oldState (n : LiveNotification) : option ETradeOfferState :=
  match n with
  | newOffer _ => None
  | sentOfferChanged _ oldState => Some oldState
  | receivedOfferChanged _ oldState => Some oldState
  end.

(** The handlers registered with [manager.on]. *)
Definition on_live (n : LiveNotification) : Promise unit :=
  match n with
  | newOffer offer => publishOffer offer None
  | sentOfferChanged offer oldState => publishOffer offer (Some oldState)
  | receivedOfferChanged offer oldState => publishOffer offer (Some oldState)
  end.

(** ** The sweep queue *)

(** What the sweep does with the promise of a pushed task:
    [queue.push({ id }).catch(err => logger.warn(...))]. *)
Definition pushed (task : EnsureOfferPublishedTask) : Promise unit :=
  catch (ensureOfferPublished task)
        (fun err => logger LvlWarn "Error ensuring offer published: " (Some err)).

(** The queue's single worker takes the tasks one after the other. *)
Fixpoint run_queue (tasks : list EnsureOfferPublishedTask) : Promise unit :=
  match tasks with
  | [] => resolve tt
  | task :: rest => _ <~ pushed task ;; run_queue rest
  end.

(** ** API operations *)

Definition getTrade (offer_id : string) : Promise TradeOffer :=
  offer <~ catch (_getTrade offer_id)
             (fun err =>
                _ <~ logger LvlError "Error getting trade offer: " (Some err) ;;
                reject err) ;;
  resolve (mapOffer offer).

(** The poll data once the engine has filed a sent offer:
    [pollData.sent[offer.id] = offer.state]. *)
Definition file_sent (pd : PollData) (offer : Offer) : PollData :=
  {| sent := <[o_id offer := o_state offer]> (sent pd);
     received := received pd;
     offerData := offerData pd |}.

(** [offer.send(callback)] on the offer built from the request: the error, or
    the offer as the engine leaves it once sent. Before it calls back with a
    sent offer the engine files it in [pollData.sent] (and emits its pollData
    event, a call of [ensurePollData] on the timer side). *)
Definition offer_send (dto : CreateTradeDto) : Promise (JsError + Offer) :=
  fun w =>
    match send_reply w dto with
    | inl err => (Resolved (inl err), w, [CallSend dto])
    | inr offer =>
        (Resolved (inr offer),
         set_pollData (file_sent (pollData w) offer) w,
         [CallSend dto])
    end.

Definition createTrade (dto : CreateTradeDto) : Promise TradeOffer :=
  _ <~ logger LvlLog "Sending trade offer to " None ;;
  catch
    (offer <~ (_ <~ logger LvlDebug "Items to give: " None ;;
               _ <~ logger LvlDebug "Items to receive: " None ;;
               r <~ offer_send dto ;;
               match r with
               | inl err =>
                   if String.eqb (err_message err)
                        "Cannot send an empty trade offer" then
                     reject (BadRequestException
                               "Cannot send an empty trade offer")
                   else
                     match err_eresult err with
                     | Some eresult =>
                         reject (EResultException (err_message err) eresult)
                     | None => reject (RawError err)
                     end
               | inr offer => resolve (mapOffer offer)
               end) ;;
     _ <~ logger LvlLog "Trade offer sent" None ;;
     resolve offer)
    (fun err =>
       _ <~ logger LvlError "Got an error while sending trade offer: "
              (Some err) ;;
       reject err).

(** [community.acceptConfirmationForObject(secret, id, callback)]. *)
Definition community_acceptConfirmationForObject (offer_id : string)
  : Promise (option JsError) :=
  fun w =>
    (Resolved (confirm_reply w offer_id), w, [CallAcceptConfirmation offer_id]).

Definition manager_doPoll : Promise unit :=
  fun w => (Resolved tt, w, [CallDoPoll]).

Definition acceptConfirmation (offer_id : string) : Promise unit :=
  _ <~ logger LvlLog "Accepting confirmation for offer #" None ;;
  catch
    (_ <~ (r <~ community_acceptConfirmationForObject offer_id ;;
           match r with
           | Some err =>
               if String.eqb (err_message err)
                    ("Could not find confirmation for object " +:+ offer_id)
               then reject (NotFoundException "Confirmation not found")
               else reject (RawError err)
           | None => resolve tt
           end) ;;
     _ <~ logger LvlLog "Accepted confirmation for offer #" None ;;
     manager_doPoll)
    (fun err =>
       logger LvlError "Error while accepting confirmation for " (Some err)).

(** [offer.cancel(callback)]: the error, or the offer as the engine leaves it
    once cancelled. *)
Definition offer_cancel (offer : Offer) : Promise (JsError + Offer) :=
  fun w => (Resolved (cancel_reply w offer), w, [CallCancel (o_id offer)]).

Definition removeTrade (offer_id : string) : Promise TradeOffer :=
  _ <~ logger LvlDebug "Removing trade offer #" None ;;
  catch
    (offer <~ (r <~ manager_getOffer offer_id ;;
               match r with
               | inl err =>
                   if String.eqb (err_message err) "NoMatch" then
                     reject (BadRequestException "Trade offer not found")
                   else
                     reject (RawError err)
               | inr offer =>
                   if state_eqb (o_state offer) Active
                      && negb (state_eqb (o_state offer)
                                 CreatedNeedsConfirmation) then
                     reject (BadRequestException "Offer is not active")
                   else
                     c <~ offer_cancel offer ;;
                     match c with
                     | inl err =>
                         if String.eqb (err_message err)
                              ("Offer #" +:+ o_id offer +:+
                               " is not active, so it may not be cancelled or declined")
                         then
                           reject (BadRequestException "Offer is not active")
                         else
                           match err_eresult err with
                           | Some eresult =>
                               reject (EResultException (err_message err)
                                         eresult)
                           | None => reject (RawError err)
                           end
                     | inr cancelled => resolve (mapOffer cancelled)
                     end
               end) ;;
     _ <~ logger LvlDebug "Removed trade offer #" None ;;
     resolve offer)
    (fun err =>
       _ <~ logger LvlError "Error while removing trade offer #" (Some err) ;;
       reject err).

(** ** The debounced sweep *)

(** The timer side of the service: the clock in milliseconds, the pending
    timeouts of the runtime (handle and due time; the only callback ever
    armed is the sweep), the next free handle, the service's
    [ensurePollDataTimeout] field, the tasks pushed on the queue, the log and
    the engine's poll data. *)
Record Service : Type := mkService {
  now : Z;
  timers : list (nat * Z);
  next_handle : nat;
  ensurePollDataTimeout : option nat;
  queue : list EnsureOfferPublishedTask;
  svc_log : list Action;
  svc_pollData : PollData
}.

Definition new_service (pd : PollData) : Service :=
  {| now := 0; timers := []; next_handle := O; ensurePollDataTimeout := None;
     queue := []; svc_log := []; svc_pollData := pd |}.

(** [Object.keys(obj)]; the order of the keys is the map's. *)
Definition object_keys {V} (obj : gmap string V) : list string :=
  (map_to_list obj).*1.

(** [clearTimeout(handle)]: a handle that is not pending is ignored. *)
Definition clearTimeout (handle : nat) (s : Service) : Service :=
  {| now := now s;
     timers := filter (fun t => t.1 ≠ handle) (timers s);
     next_handle := next_handle s;
     ensurePollDataTimeout := ensurePollDataTimeout s;
     queue := queue s; svc_log := svc_log s;
     svc_pollData := svc_pollData s |}.

(** [setTimeout(callback, delay)]: the new handle and the state with the
    timeout armed. *)
Definition setTimeout (delay : Z) (s : Service) : nat * Service :=
  (next_handle s,
   {| now := now s;
      timers := (timers s ++ [(next_handle s, now s + delay)])%list;
      next_handle := S (next_handle s);
      ensurePollDataTimeout := ensurePollDataTimeout s;
      queue := queue s; svc_log := svc_log s;
      svc_pollData := svc_pollData s |}).

Definition sweep_message : string :=
  "Enqueuing offers to ensure poll data is published".

Definition sweep_tasks (pd : PollData) : list EnsureOfferPublishedTask :=
  mkTask <$> (object_keys (sent pd) ++ object_keys (received pd))%list.

(** The callback of the timeout: one pushed task for every key of
    [pollData.sent] followed by every key of [pollData.received]. *)
Definition sweep (s : Service) : Service :=
  {| now := now s; timers := timers s; next_handle := next_handle s;
     ensurePollDataTimeout := ensurePollDataTimeout s;
     queue := (queue s ++ sweep_tasks (svc_pollData s))%list;
     svc_log := (svc_log s ++ [Log LvlDebug sweep_message None])%list;
     svc_pollData := svc_pollData s |}.

Definition ensurePollData (s : Service) : Service :=
  let s1 :=
    match ensurePollDataTimeout s with
    | Some handle => clearTimeout handle s
    | None => s
    end in
  let '(handle, s2) := setTimeout 1000 s1 in
  {| now := now s2; timers := timers s2; next_handle := next_handle s2;
     ensurePollDataTimeout := Some handle;
     queue := queue s2; svc_log := svc_log s2;
     svc_pollData := svc_pollData s2 |}.

(** The clock moves to [t]: every timeout due by then runs its callback and
    is gone. *)
Definition advance (t : Z) (s : Service) : Service :=
  let due := filter (fun x => x.2 ≤ t) (timers s) in
  let s1 :=
    {| now := Z.max (now s) t;
       timers := filter (fun x => ¬ x.2 ≤ t) (timers s);
       next_handle := next_handle s;
       ensurePollDataTimeout := ensurePollDataTimeout s;
       queue := queue s; svc_log := svc_log s;
       svc_pollData := svc_pollData s |} in
  foldl (fun acc _ => sweep acc) s1 due.

(** The engine's [pollData] event at time [t]. *)
Definition pollData_event (t : Z) (s : Service) : Service :=
  ensurePollData (advance t s).

(** A burst of [pollData] events at the given times. *)
Definition run_calls (ts : list Z) (s : Service) : Service :=
  foldl (fun acc t => pollData_event t acc) s ts.

Definition is_sweep_log (a : Action) : bool :=
  match a with
  | Log LvlDebug text None => String.eqb text sweep_message
  | _ => false
  end.

(** The number of sweeps that have fired. *)
Definition sweep_count (s : Service) : nat :=
  length (filter (fun a => is_sweep_log a = true) (svc_log s)).

(** Each call comes less than the quiet interval after the one before. *)
Fixpoint within_quiet_interval (t0 : Z) (ts : list Z) : Prop :=
  match ts with
  | [] => True
  | t :: rest => t0 ≤ t ∧ t < t0 + 1000 ∧ within_quiet_interval t rest
  end.

(** ** Derived notions *)

(** The events the service handed to the channel, published or not. *)
Definition attempted (t : list Action) : list Event :=
  omap (fun a => match a with CallPublish e _ => Some e | _ => None end) t.

(** The events the channel accepted. *)
Definition delivered (t : list Action) : list Event :=
  omap (fun a => match a with CallPublish e true => Some e | _ => None end) t.

(** [s] is the whole number of seconds of [ms] milliseconds. *)
Definition floor_seconds_of (ms s : Z) : Prop :=
  1000 * s ≤ ms < 1000 * s + 1000.

Ltac unfold_promise :=
  unfold publishOffer, catch, and_then, offer_data_set, offer_data, logger,
    resolve, reject, settled, world_after, calls in *.

(** The error [_getTrade] rejects with for an engine error. *)
Definition fetch_error (err : JsError) : Exn :=
  if String.eqb (err_message err) "NoMatch" then
    BadRequestException "Trade offer not found"
  else RawError err.

(** The guard of [removeTrade] on the fetched state. *)
Definition removal_blocked (s : ETradeOfferState) : bool :=
  state_eqb s Active && negb (state_eqb s CreatedNeedsConfirmation).

(** The error [createTrade] and [removeTrade] reject with for an error of
    [offer.send] or [offer.cancel] that is not a special case. *)
Definition engine_exn (err : JsError) : Exn :=
  match err_eresult err with
  | Some eresult => EResultException (err_message err) eresult
  | None => RawError err
  end.

(** The state the poll data holds for an offer: [pollData.sent[id] ??
    pollData.received[id] ?? null]. *)
Definition cheap_state (pd : PollData) (offer_id : string)
  : option ETradeOfferState :=
  nullish (sent pd !! offer_id) (received pd !! offer_id).

(** The only timeout that can be pending is the one the service remembers. *)
Definition armed (s : Service) : Prop :=
  timers s = []
  ∨ ∃ handle due, timers s = [(handle, due)]
                  ∧ ensurePollDataTimeout s = Some handle.

(** The state in the middle of a burst that started from [s0]: the last call
    came at [t0], its timeout is the only one pending, and nothing was pushed
    or logged since [s0]. *)
Definition waiting (t0 : Z) (s0 s : Service) : Prop :=
  now s = t0
  ∧ (∃ handle, timers s = [(handle, t0 + 1000)]
               ∧ ensurePollDataTimeout s = Some handle)
  ∧ queue s = queue s0
  ∧ svc_log s = svc_log s0
  ∧ svc_pollData s = svc_pollData s0.

(** ** Sample data *)

Definition key_item : Item :=
  {| appid := 440; contextid := "2"; assetid := "11021456789" |}.

(** An offer a partner sent us, still open. *)
Definition incoming_offer : Offer :=
  {| o_partner := "76561198000000001"; o_id := "5001"; o_message := "hi";
     o_state := Active; o_itemsToGive := [key_item]; o_itemsToReceive := [];
     o_glitched := false; o_isOurOffer := false;
     o_created := 1700000000999; o_updated := 1700000001000;
     o_expires := 1701209600500; o_tradeID := None;
     o_fromRealTimeTrade := false; o_confirmationMethod := ConfirmNone;
     o_escrowEnds := None |}.

(** An offer of ours that the partner has accepted. *)
Definition accepted_offer : Offer :=
  {| o_partner := "76561198000000002"; o_id := "5002"; o_message := "";
     o_state := Accepted; o_itemsToGive := [key_item]; o_itemsToReceive := [];
     o_glitched := false; o_isOurOffer := true;
     o_created := 1700000000000; o_updated := 1700000060000;
     o_expires := 1701209600000; o_tradeID := Some "777";
     o_fromRealTimeTrade := false; o_confirmationMethod := ConfirmMobileApp;
     o_escrowEnds := Some 1700086400123 |}.

Definition with_state (s : ETradeOfferState) (offer : Offer) : Offer :=
  {| o_partner := o_partner offer; o_id := o_id offer;
     o_message := o_message offer; o_state := s;
     o_itemsToGive := o_itemsToGive offer;
     o_itemsToReceive := o_itemsToReceive offer;
     o_glitched := o_glitched offer; o_isOurOffer := o_isOurOffer offer;
     o_created := o_created offer; o_updated := o_updated offer;
     o_expires := o_expires offer; o_tradeID := o_tradeID offer;
     o_fromRealTimeTrade := o_fromRealTimeTrade offer;
     o_confirmationMethod := o_confirmationMethod offer;
     o_escrowEnds := o_escrowEnds offer |}.

Definition channel_up : nat -> option JsError := fun _ => None.
Definition channel_down : nat -> option JsError :=
  fun _ => Some (mkError "Connection closed" None).

(** A world that knows the two sample offers; nothing is published yet. *)
Definition sample_world (chan : nat -> option JsError) : World :=
  {| pollData :=
       {| sent := {[ "5002" := Accepted ]};
          received := {[ "5001" := Active ]};
          offerData := None |};
     steam := {[ "5001" := inr incoming_offer; "5002" := inr accepted_offer ]};
     channel := chan;
     attempts := O;
     cancel_reply := fun offer => inr (with_state Canceled offer);
     send_reply := fun _ => inl (mkError "Cannot send an empty trade offer" None);
     confirm_reply := fun _ => None |}.

(** A world whose poll data still lists an offer the engine no longer
    knows. *)
Definition stale_world : World :=
  {| pollData :=
       {| sent := {[ "5003" := Active ]}; received := ∅; offerData := None |};
     steam := ∅;
     channel := channel_up;
     attempts := O;
     cancel_reply := fun offer => inr (with_state Canceled offer);
     send_reply := fun _ => inl (mkError "Cannot send an empty trade offer" None);
     confirm_reply := fun _ => None |}.

(** A world in which the offer has no confirmation waiting. *)
Definition unconfirmed_world : World :=
  {| pollData := pollData (sample_world channel_up);
     steam := steam (sample_world channel_up);
     channel := channel_up;
     attempts := O;
     cancel_reply := fun offer => inl (mkError "Access Denied" (Some 15));
     send_reply := fun _ => inl (mkError "Limit Exceeded" (Some 25));
     confirm_reply :=
       fun offer_id =>
         Some (mkError ("Could not find confirmation for object " +:+ offer_id)
                 None) |}.

(** A world whose poll data has not caught up: it still lists our offer as
    Active while the engine already answers that it is Accepted. *)
Definition lagging_world : World :=
  {| pollData :=
       {| sent := {[ "5002" := Active ]};
          received := {[ "5001" := Active ]};
          offerData := None |};
     steam := {[ "5001" := inr incoming_offer; "5002" := inr accepted_offer ]};
     channel := channel_up;
     attempts := O;
     cancel_reply := fun offer => inr (with_state Canceled offer);
     send_reply := fun _ => inl (mkError "Cannot send an empty trade offer" None);
     confirm_reply := fun _ => None |}.

(** ** Further operations *)

(** The answer of [getTrades]. *)
Record GetTradesResponse : Type := mkResponse {
  gt_sent : list TradeOffer;
  gt_received : list TradeOffer
}.

(** [getTrades(dto)], given the arguments [manager.getOffers(dto.filter,
    callback)] hands to its callback: the error, or the offers we sent and
    the offers we received. *)
Definition getTrades (reply : JsError + list Offer * list Offer)
  : Promise GetTradesResponse :=
  catch
    (match reply with
     | inl err => reject (RawError err)
     | inr (sent_offers, received_offers) =>
         let sentMapped := mapOffer <$> sent_offers in
         let receivedMapped := mapOffer <$> received_offers in
         resolve {| gt_sent := sentMapped; gt_received := receivedMapped |}
     end)
    (fun err =>
       _ <~ logger LvlError "Error getting trades: " (Some err) ;;
       reject err).

(** The engine delivers its notifications one at a time. *)
Fixpoint run_live (ns : list LiveNotification) : Promise unit :=
  match ns with
  | [] => resolve tt
  | n :: rest => _ <~ on_live n ;; run_live rest
  end.

(** ** Further notions *)

(** The engine answers a fetch with the offer that was asked for. *)
Definition engine_consistent (w : World) : Prop :=
  ∀ offer_id offer, fetch_reply w offer_id = inr offer → o_id offer = offer_id.

(** The poll data is up to date: the state it holds for an offer is the state
    of the offer the engine answers with. *)
Definition poll_data_current (w : World) : Prop :=
  ∀ offer_id c, cheap_state (pollData w) offer_id = Some c →
    ∃ offer, fetch_reply w offer_id = inr offer ∧ o_state offer = c.

(** The channel accepts every event. *)
Definition channel_open (w : World) : Prop := ∀ k, channel w k = None.

(** The world once [offer] has been published and marked. *)
Definition marked (offer : Offer) (w : World) : World :=
  set_pollData (write_published (pollData w) (o_id offer) (o_state offer))
    (set_attempts (S (attempts w)) w).

(** The four ways through [ensureOfferPublished]: already published by the
    poll data; fetch failed; fetched and found marked; fetched and handed to
    [publishOffer]. *)
Inductive WorkerPath (task : EnsureOfferPublishedTask) (w : World)
  : Settled unit * World * list Action → Prop :=
| path_fast :
    already_published (pollData w) (task_id task) = true →
    WorkerPath task w (Resolved tt, w, [])
| path_fetch_failed err :
    already_published (pollData w) (task_id task) = false →
    fetch_reply w (task_id task) = inl err →
    WorkerPath task w
      (Rejected (fetch_error err), w, [CallGetOffer (task_id task)])
| path_marked offer :
    already_published (pollData w) (task_id task) = false →
    fetch_reply w (task_id task) = inr offer →
    read_published (pollData w) (o_id offer) = Some (o_state offer) →
    WorkerPath task w (Resolved tt, w, [CallGetOffer (task_id task)])
| path_published offer e :
    already_published (pollData w) (task_id task) = false →
    fetch_reply w (task_id task) = inr offer →
    read_published (pollData w) (o_id offer) ≠ Some (o_state offer) →
    publish offer (read_published (pollData w) (o_id offer))
    = eventsService_publish e →
    channel w (attempts w) = None →
    WorkerPath task w
      (Resolved tt, marked offer w,
       [CallGetOffer (task_id task); CallPublish e true])
| path_refused offer e err :
    already_published (pollData w) (task_id task) = false →
    fetch_reply w (task_id task) = inr offer →
    read_published (pollData w) (o_id offer) ≠ Some (o_state offer) →
    publish offer (read_published (pollData w) (o_id offer))
    = eventsService_publish e →
    channel w (attempts w) = Some err →
    WorkerPath task w
      (Resolved tt, set_attempts (S (attempts w)) w,
       [CallGetOffer (task_id task); CallPublish e false;
        Log LvlWarn "Error publishing offer: " (Some (RawError err))]).

(** The offer ids of the events in a list of calls. *)
Definition event_ids (t : list Action) : list string :=
  (fun e => id (event_offer e)) <$> attempted t.

(** Each call comes at least the quiet interval after the one before. *)
Fixpoint spaced (t0 : Z) (ts : list Z) : Prop :=
  match ts with
  | [] => True
  | t :: rest => t0 + 1000 ≤ t ∧ spaced t rest
  end.

(** The last call came at [t0] and its timeout is the only one pending. *)
Definition pending_at (t0 : Z) (s : Service) : Prop :=
  now s = t0
  ∧ ∃ handle, timers s = [(handle, t0 + 1000)]
              ∧ ensurePollDataTimeout s = Some handle.

(** The state of the last notification about offer [k] in [ns], [init] when
    there is none. *)
Definition last_state_for (k : string) (ns : list LiveNotification)
    (init : option ETradeOfferState) : option ETradeOfferState :=
  foldl (fun acc n =>
           if decide (o_id (live_offer n) = k)
           then Some (o_state (live_offer n)) else acc)
        init ns.

(** ** Further sample data *)

(** A channel that refuses the first event and accepts the later ones. *)
Definition channel_flaky : nat -> option JsError :=
  fun k => match k with
           | O => Some (mkError "Connection closed" None)
           | S _ => None
           end.

(** The sample world once offer 5002 was published as Active. *)
Definition marked_active_world : World :=
  set_pollData (write_published (pollData (sample_world channel_up)) "5002" Active)
    (sample_world channel_up).

(** ** The engine's polls *)







(** * Properties *)

(** ** Basic facts *)

Lemma epoch_seconds_floor (ms : Z) : floor_seconds_of ms (epoch_seconds ms).
Proof.
  unfold floor_seconds_of, epoch_seconds.
  pose proof (Z.mul_div_le ms 1000).
  pose proof (Z.mul_succ_div_gt ms 1000).
  lia.
Qed.

Lemma state_eqb_eq (a b : ETradeOfferState) : state_eqb a b = true ↔ a = b.
Proof.
  unfold state_eqb. rewrite Z.eqb_eq.
  split; [| by intros ->].
  destruct a, b; simpl; intros H; try reflexivity; discriminate H.
Qed.

Lemma state_eqb_refl (a : ETradeOfferState) : state_eqb a a = true.
Proof. by apply state_eqb_eq. Qed.

Lemma opt_state_eqb_eq (x y : option ETradeOfferState) :
  opt_state_eqb x y = true ↔ x = y.
Proof.
  destruct x as [a|], y as [b|]; simpl; try (split; congruence).
  rewrite state_eqb_eq. split; congruence.
Qed.

Lemma truthy_some (s : ETradeOfferState) : truthy (Some s) = true.
Proof. by destruct s. Qed.

(** Whatever the branch, [publish] makes one call to the channel. *)
Lemma publish_one_call (offer : Offer) (oldState : option ETradeOfferState) :
  ∃ e, publish offer oldState = eventsService_publish e
       ∧ event_offer e = mapOffer offer.
Proof.
  unfold publish.
  repeat match goal with
         | |- context [if ?b then _ else _] => destruct b
         end; eauto.
Qed.

Lemma eventsService_publish_run (e : Event) (w : World) :
  eventsService_publish e w =
    (match channel w (attempts w) with
     | None => Resolved tt
     | Some err => Rejected (RawError err)
     end,
     set_attempts (S (attempts w)) w,
     [CallPublish e (bool_decide (channel w (attempts w) = None))]).
Proof.
  unfold eventsService_publish. by destruct (channel w (attempts w)).
Qed.

Lemma publishOffer_run (offer : Offer) (oldState : option ETradeOfferState)
    (w : World) :
  ∃ e, publish offer oldState = eventsService_publish e ∧
    publishOffer offer oldState w =
      match channel w (attempts w) with
      | None =>
          (Resolved tt,
           set_pollData
             (write_published (pollData w) (o_id offer) (o_state offer))
             (set_attempts (S (attempts w)) w),
           [CallPublish e true])
      | Some err =>
          (Resolved tt, set_attempts (S (attempts w)) w,
           [CallPublish e false;
            Log LvlWarn "Error publishing offer: " (Some (RawError err))])
      end.
Proof.
  destruct (publish_one_call offer oldState) as (e & He & _).
  exists e. split; [done |].
  unfold_promise. rewrite He, eventsService_publish_run.
  by destruct (channel w (attempts w)).
Qed.

Lemma read_write_published (pd : PollData) (k : string) (s : ETradeOfferState) :
  read_published (write_published pd k s) k = Some s.
Proof.
  unfold read_published, write_published. simpl.
  by rewrite lookup_insert_eq.
Qed.

(** The first check of the worker compares the cheap state with the
    marker. *)
Lemma already_published_spec (pd : PollData) (k : string) :
  already_published pd k = true ↔
    ∃ c, nullish (sent pd !! k) (received pd !! k) = Some c
         ∧ read_published pd k = Some c.
Proof.
  unfold already_published, read_published.
  destruct (nullish (sent pd !! k) (received pd !! k)) as [c|].
  - rewrite opt_state_eqb_eq.
    destruct (offerData pd) as [od|]; simpl.
    + destruct (od !! k); split; [intros <-; eauto | intros (?&[= <-]&?); done
                                 | intros <-; eauto | intros (?&[= <-]&?); done].
    + rewrite lookup_empty. split; [done | intros (?&_&?); done].
  - split; [done | intros (?&?&_); done].
Qed.

Example sample_sweep_of_incoming :
  let r := ensureOfferPublished (mkTask "5001") (sample_world channel_up) in
  settled r = Resolved tt
  ∧ calls r = [CallGetOffer "5001";
               CallPublish (trades_received (mapOffer incoming_offer)) true]
  ∧ read_published (pollData (world_after r)) "5001" = Some Active.
Proof. vm_compute. done. Qed.

Example sample_sweep_of_accepted :
  let r := ensureOfferPublished (mkTask "5002") (sample_world channel_down) in
  settled r = Resolved tt
  ∧ attempted (calls r) = [trades_changed (mapOffer accepted_offer) None]
  ∧ delivered (calls r) = []
  ∧ read_published (pollData (world_after r)) "5002" = None.
Proof. vm_compute. done. Qed.

(** ** The published snapshot *)

Example mapOffer_accepted_offer :
  mapOffer accepted_offer =
    {| partner := "76561198000000002"; id := "5002"; message := "";
       state := Accepted; itemsToGive := [key_item]; itemsToReceive := [];
       isGlitched := false; isOurOffer := true;
       createdAt := 1700000000; updatedAt := 1700000060;
       expiresAt := 1701209600; tradeID := Some "777";
       fromRealTimeTrade := false; confirmationMethod := ConfirmMobileApp;
       escrowEndsAt := Some 1700086400 |}.
Proof. reflexivity. Qed.

Example mapOffer_incoming_offer_times :
  createdAt (mapOffer incoming_offer) = 1700000000
  ∧ updatedAt (mapOffer incoming_offer) = 1700000001
  ∧ escrowEndsAt (mapOffer incoming_offer) = None.
Proof. by vm_compute. Qed.

(** C9: every published event carries [mapOffer offer], and [mapOffer] copies
    the partner identifier, id, message, state, items to give, items to
    receive, glitched flag, directionality flag, trade id, real-time-trade
    flag and confirmation method, turns the created, updated and expires
    dates into whole epoch seconds (the floor of the milliseconds divided by
    1000), and gives an escrow end that is null exactly when the offer has
    none and is its whole epoch seconds otherwise. *)
Theorem published_snapshot_projection
    (offer : Offer) (oldState : option ETradeOfferState) (w : World) :
  let snapshot := mapOffer offer in
  (∃ e ok, calls (publish offer oldState w) = [CallPublish e ok]
           ∧ event_offer e = snapshot)
  ∧ partner snapshot = o_partner offer
  ∧ id snapshot = o_id offer
  ∧ message snapshot = o_message offer
  ∧ state snapshot = o_state offer
  ∧ itemsToGive snapshot = o_itemsToGive offer
  ∧ itemsToReceive snapshot = o_itemsToReceive offer
  ∧ isGlitched snapshot = o_glitched offer
  ∧ isOurOffer snapshot = o_isOurOffer offer
  ∧ floor_seconds_of (o_created offer) (createdAt snapshot)
  ∧ floor_seconds_of (o_updated offer) (updatedAt snapshot)
  ∧ floor_seconds_of (o_expires offer) (expiresAt snapshot)
  ∧ tradeID snapshot = o_tradeID offer
  ∧ fromRealTimeTrade snapshot = o_fromRealTimeTrade offer
  ∧ confirmationMethod snapshot = o_confirmationMethod offer
  ∧ (escrowEndsAt snapshot = None ↔ o_escrowEnds offer = None)
  ∧ (∀ ms, o_escrowEnds offer = Some ms →
       ∃ s, escrowEndsAt snapshot = Some s ∧ floor_seconds_of ms s).
Proof.
  simpl. split.
  { destruct (publish_one_call offer oldState) as (e & -> & He).
    rewrite eventsService_publish_run. unfold calls. simpl. eauto. }
  repeat split; try apply epoch_seconds_floor.
  - by destruct (o_escrowEnds offer).
  - by intros ->.
  - intros ms ->. eexists. split; [done | apply epoch_seconds_floor].
Qed.

(** ** Classification *)

Example classify_incoming_active :
  attempted (calls (publish incoming_offer None (sample_world channel_up)))
  = [trades_received (mapOffer incoming_offer)].
Proof. reflexivity. Qed.

Example classify_own_active_with_items :
  attempted (calls (publish (with_state Active accepted_offer) None
                      (sample_world channel_up)))
  = [trades_changed (mapOffer (with_state Active accepted_offer)) None].
Proof. reflexivity. Qed.

Example classify_own_needs_confirmation :
  attempted (calls (publish (with_state CreatedNeedsConfirmation accepted_offer)
                      None (sample_world channel_down)))
  = [trades_sent (mapOffer (with_state CreatedNeedsConfirmation accepted_offer))].
Proof. reflexivity. Qed.

Example classify_with_prior_state :
  attempted (calls (publish accepted_offer (Some Active)
                      (sample_world channel_up)))
  = [trades_changed (mapOffer accepted_offer) (Some Active)].
Proof. reflexivity. Qed.

(** C1: [publish] hands exactly one event to the channel, chosen by the
    table: received offer, no prior state, Active: received; our offer, no
    prior state, CreatedNeedsConfirmation: sent; our offer, no prior state,
    Active, nothing to give: sent; our offer, no prior state, Active,
    something to give: changed with oldState null; a known prior state P
    (different from the current state or not): changed with oldState P; any
    other offer with no prior state: changed with oldState null. *)
Theorem classification_table
    (offer : Offer) (prior : option ETradeOfferState) (w : World) :
  let events := attempted (calls (publish offer prior w)) in
  length (filter (fun a => is_publish a = true) (calls (publish offer prior w)))
    = 1%nat
  ∧ (o_isOurOffer offer = false → prior = None → o_state offer = Active →
       events = [trades_received (mapOffer offer)])
  ∧ (o_isOurOffer offer = true → prior = None →
       o_state offer = CreatedNeedsConfirmation →
       events = [trades_sent (mapOffer offer)])
  ∧ (o_isOurOffer offer = true → prior = None → o_state offer = Active →
       o_itemsToGive offer = [] →
       events = [trades_sent (mapOffer offer)])
  ∧ (o_isOurOffer offer = true → prior = None → o_state offer = Active →
       o_itemsToGive offer ≠ [] →
       events = [trades_changed (mapOffer offer) None])
  ∧ (∀ P, prior = Some P →
       events = [trades_changed (mapOffer offer) (Some P)])
  ∧ (prior = None →
       ¬ (o_isOurOffer offer = false ∧ o_state offer = Active) →
       ¬ (o_isOurOffer offer = true
          ∧ o_state offer = CreatedNeedsConfirmation) →
       ¬ (o_isOurOffer offer = true ∧ o_state offer = Active
          ∧ o_itemsToGive offer = []) →
       events = [trades_changed (mapOffer offer) None]).
Proof.
  simpl. split.
  { destruct (publish_one_call offer prior) as (e & -> & _).
    by rewrite eventsService_publish_run. }
  unfold publish.
  repeat split.
  - intros -> -> ->. simpl. by rewrite eventsService_publish_run.
  - intros -> -> ->. simpl. by rewrite eventsService_publish_run.
  - intros -> -> -> ->. simpl. by rewrite eventsService_publish_run.
  - intros -> -> -> Hne. simpl.
    destruct (o_itemsToGive offer); [done |].
    simpl. by rewrite eventsService_publish_run.
  - intros P ->. rewrite truthy_some. by rewrite eventsService_publish_run.
  - intros -> H1 H2 H3. simpl.
    destruct (o_isOurOffer offer); simpl.
    + destruct (state_eqb (o_state offer) CreatedNeedsConfirmation) eqn:E9.
      { apply state_eqb_eq in E9. tauto. }
      destruct (state_eqb (o_state offer) Active) eqn:E2; simpl.
      * apply state_eqb_eq in E2.
        destruct (o_itemsToGive offer); [tauto |].
        simpl. by rewrite eventsService_publish_run.
      * by rewrite eventsService_publish_run.
    + destruct (state_eqb (o_state offer) Active) eqn:E2.
      { apply state_eqb_eq in E2. tauto. }
      by rewrite eventsService_publish_run.
Qed.

(** ** The publish protocol *)

Lemma _getTrade_run (offer_id : string) (w : World) :
  _getTrade offer_id w =
    (match fetch_reply w offer_id with
     | inl err => Rejected (fetch_error err)
     | inr offer => Resolved offer
     end, w, [CallGetOffer offer_id]).
Proof.
  unfold _getTrade, manager_getOffer, and_then, fetch_error.
  destruct (fetch_reply w offer_id) as [err|offer]; simpl.
  - by destruct (String.eqb (err_message err) "NoMatch").
  - done.
Qed.

(** The worker step by step. *)
Lemma ensureOfferPublished_run (task : EnsureOfferPublishedTask) (w : World) :
  ensureOfferPublished task w =
    if already_published (pollData w) (task_id task) then (Resolved tt, w, [])
    else
      match fetch_reply w (task_id task) with
      | inl err => (Rejected (fetch_error err), w, [CallGetOffer (task_id task)])
      | inr offer =>
          let publishedState := read_published (pollData w) (o_id offer) in
          if opt_state_eqb (Some (o_state offer)) publishedState then
            (Resolved tt, w, [CallGetOffer (task_id task)])
          else
            (settled (publishOffer offer publishedState w),
             world_after (publishOffer offer publishedState w),
             CallGetOffer (task_id task)
               :: calls (publishOffer offer publishedState w))
      end.
Proof.
  unfold ensureOfferPublished.
  destruct (already_published (pollData w) (task_id task)); [done |].
  unfold and_then at 1. rewrite _getTrade_run.
  destruct (fetch_reply w (task_id task)) as [err|offer]; [done |].
  unfold and_then, offer_data. cbv beta iota.
  destruct (opt_state_eqb (Some (o_state offer))
              (read_published (pollData w) (o_id offer))); [done |].
  unfold settled, world_after, calls.
  by destruct (publishOffer offer (read_published (pollData w) (o_id offer)) w)
    as [[r w'] t].
Qed.

Example publish_failure_keeps_marker :
  let w := sample_world channel_down in
  let r := publishOffer incoming_offer None w in
  calls r = [CallPublish (trades_received (mapOffer incoming_offer)) false;
             Log LvlWarn "Error publishing offer: "
               (Some (RawError (mkError "Connection closed" None)))]
  ∧ pollData (world_after r) = pollData w.
Proof. by vm_compute. Qed.

(** One call of [publishOffer]: one event handed over; the marker written
    when it went out, the poll data untouched when it did not. *)
Lemma publishOffer_marker (o : Offer) (p : option ETradeOfferState) (w : World) :
  length (attempted (calls (publishOffer o p w))) = 1%nat
  ∧ (delivered (calls (publishOffer o p w)) ≠ [] →
       read_published (pollData (world_after (publishOffer o p w))) (o_id o)
       = Some (o_state o))
  ∧ (delivered (calls (publishOffer o p w)) = [] →
       pollData (world_after (publishOffer o p w)) = pollData w).
Proof.
  destruct (publishOffer_run o p w) as (e & _ & ->).
  destruct (channel w (attempts w)); unfold calls, world_after; simpl.
  - repeat split; done.
  - repeat split; [intros _; apply read_write_published | done].
Qed.

(** C3: in [publishOffer], and so from a live notification and from the
    sweep worker alike, the marker of the offer is set to the offer's state
    when the channel accepted the event, after which reading the marker
    gives that state, and the poll data is left as it was when the channel
    refused it. *)
Theorem marker_written_iff_published
    (offer : Offer) (oldState : option ETradeOfferState)
    (n : LiveNotification) (task : EnsureOfferPublishedTask) (w : World) :
  let direct := publishOffer offer oldState w in
  let live := on_live n w in
  let swept := ensureOfferPublished task w in
  length (attempted (calls direct)) = 1%nat
  ∧ (delivered (calls direct) ≠ [] →
       read_published (pollData (world_after direct)) (o_id offer)
       = Some (o_state offer))
  ∧ (delivered (calls direct) = [] →
       pollData (world_after direct) = pollData w)
  ∧ (delivered (calls live) ≠ [] →
       read_published (pollData (world_after live)) (o_id (live_offer n))
       = Some (o_state (live_offer n)))
  ∧ (delivered (calls live) = [] → pollData (world_after live) = pollData w)
  ∧ (delivered (calls swept) ≠ [] →
       ∃ fetched, fetch_reply w (task_id task) = inr fetched
         ∧ read_published (pollData (world_after swept)) (o_id fetched)
           = Some (o_state fetched))
  ∧ (delivered (calls swept) = [] → pollData (world_after swept) = pollData w).
Proof.
  pose proof (fun o p => publishOffer_marker o p w) as Hdirect.
  simpl.
  destruct (Hdirect offer oldState) as (H1 & H2 & H3).
  split; [done |]. split; [done |]. split; [done |].
  assert (Hlive : on_live n w = publishOffer (live_offer n) (live_oldState n) w)
    by by destruct n.
  rewrite Hlive.
  destruct (Hdirect (live_offer n) (live_oldState n)) as (_ & L2 & L3).
  split; [done |]. split; [done |].
  rewrite ensureOfferPublished_run.
  destruct (already_published (pollData w) (task_id task)).
  { unfold calls, world_after. simpl.
    split; [intros Hd; by destruct Hd | done]. }
  destruct (fetch_reply w (task_id task)) as [err|fetched].
  { unfold calls, world_after. simpl.
    split; [intros Hd; by destruct Hd | done]. }
  cbv zeta.
  destruct (opt_state_eqb (Some (o_state fetched))
              (read_published (pollData w) (o_id fetched))).
  { unfold calls, world_after. simpl.
    split; [intros Hd; by destruct Hd | done]. }
  destruct (Hdirect fetched (read_published (pollData w) (o_id fetched)))
    as (_ & S2 & S3).
  unfold calls at 1 3, world_after at 1 3. simpl.
  split; [intros Hd; exists fetched; split; [done | by apply S2] | done].
Qed.

Lemma eventsService_publish_inj (e e' : Event) :
  eventsService_publish e = eventsService_publish e' → e = e'.
Proof.
  intros H.
  pose proof (f_equal (fun p => calls (p (sample_world channel_up))) H) as Hc.
  simpl in Hc. by injection Hc.
Qed.

(** The event [publish] chooses does not depend on the world. *)
Lemma publishOffer_attempted (offer : Offer) (oldState : option ETradeOfferState)
    (e : Event) (w : World) :
  publish offer oldState = eventsService_publish e →
  attempted (calls (publishOffer offer oldState w)) = [e]
  ∧ filter (fun a => is_fetch a = true) (calls (publishOffer offer oldState w))
    = [].
Proof.
  intros He.
  destruct (publishOffer_run offer oldState w) as (e' & He' & ->).
  rewrite He in He'. apply eventsService_publish_inj in He' as <-.
  by destruct (channel w (attempts w)).
Qed.

Lemma publishOffer_resolves (offer : Offer) (oldState : option ETradeOfferState)
    (w : World) :
  settled (publishOffer offer oldState w) = Resolved tt.
Proof.
  destruct (publishOffer_run offer oldState w) as (e & _ & ->).
  by destruct (channel w (attempts w)).
Qed.

Lemma on_live_publishOffer (n : LiveNotification) :
  on_live n = publishOffer (live_offer n) (live_oldState n).
Proof. by destruct n. Qed.

(** ** Live notifications *)

Example live_republishes_published_state :
  let w := sample_world channel_up in
  let w1 := world_after (on_live (newOffer incoming_offer) w) in
  read_published (pollData w1) "5001" = Some Active
  ∧ calls (on_live (newOffer incoming_offer) w1)
    = [CallPublish (trades_received (mapOffer incoming_offer)) true].
Proof. by vm_compute. Qed.

(** The event chosen for a known prior state. *)
Lemma publish_with_prior (offer : Offer) (P : ETradeOfferState) :
  publish offer (Some P)
  = eventsService_publish (trades_changed (mapOffer offer) (Some P)).
Proof. unfold publish. by rewrite truthy_some. Qed.

Lemma state_eqb_neq (a b : ETradeOfferState) : a ≠ b → state_eqb a b = false.
Proof.
  intros Hne. destruct (state_eqb a b) eqn:E; [| done].
  by apply state_eqb_eq in E.
Qed.

(** The event chosen when no prior state is known. *)
Lemma publish_without_prior (offer : Offer) :
  (o_isOurOffer offer = false → o_state offer = Active →
     publish offer None = eventsService_publish (trades_received (mapOffer offer)))
  ∧ (o_isOurOffer offer = false → o_state offer ≠ Active →
     publish offer None
     = eventsService_publish (trades_changed (mapOffer offer) None))
  ∧ (o_isOurOffer offer = true → o_state offer = CreatedNeedsConfirmation →
     publish offer None = eventsService_publish (trades_sent (mapOffer offer)))
  ∧ (o_isOurOffer offer = true → o_state offer = Active →
     o_itemsToGive offer = [] →
     publish offer None = eventsService_publish (trades_sent (mapOffer offer)))
  ∧ (o_isOurOffer offer = true → o_state offer = Active →
     o_itemsToGive offer ≠ [] →
     publish offer None
     = eventsService_publish (trades_changed (mapOffer offer) None))
  ∧ (o_isOurOffer offer = true → o_state offer ≠ CreatedNeedsConfirmation →
     o_state offer ≠ Active →
     publish offer None
     = eventsService_publish (trades_changed (mapOffer offer) None)).
Proof.
  unfold publish. cbn [truthy].
  split; [by intros -> -> |].
  split; [intros -> Hne; cbn [negb]; by rewrite (state_eqb_neq _ _ Hne) |].
  split; [by intros -> -> |].
  split; [by intros -> -> -> |].
  split.
  - intros -> -> Hne. simpl. by destruct (o_itemsToGive offer).
  - intros -> H9 H2. cbn [negb].
    by rewrite (state_eqb_neq _ _ H9), (state_eqb_neq _ _ H2).
Qed.

(** C6: a live notification goes straight to [publishOffer], with a null
    prior state exactly for a new offer: it is classified and one event is
    handed to the channel whatever the poll data and the marker hold, with
    no fetch before it. A changed offer goes out as trades.changed with the
    prior state the engine reports; a new offer as trades.received (not
    ours, Active), trades.sent (ours, waiting for confirmation or Active with
    nothing to give) or trades.changed with oldState null (all others). The
    marker becomes the offer's state when the channel accepted the event. *)
Theorem live_notification_publishes_unconditionally
    (n : LiveNotification) (w : World) :
  let r := on_live n w in
  on_live n = publishOffer (live_offer n) (live_oldState n)
  ∧ (live_oldState n = None ↔ ∃ offer, n = newOffer offer)
  ∧ length (attempted (calls r)) = 1%nat
  ∧ filter (fun a => is_fetch a = true) (calls r) = []
  ∧ (∀ pd, attempted (calls (on_live n (set_pollData pd w)))
           = attempted (calls r))
  ∧ (delivered (calls r) ≠ [] →
       read_published (pollData (world_after r)) (o_id (live_offer n))
       = Some (o_state (live_offer n)))
  ∧ (∀ offer P,
       n = sentOfferChanged offer P ∨ n = receivedOfferChanged offer P →
       attempted (calls r) = [trades_changed (mapOffer offer) (Some P)])
  ∧ (∀ offer, n = newOffer offer →
       (o_isOurOffer offer = false → o_state offer = Active →
          attempted (calls r) = [trades_received (mapOffer offer)])
       ∧ (o_isOurOffer offer = false → o_state offer ≠ Active →
          attempted (calls r) = [trades_changed (mapOffer offer) None])
       ∧ (o_isOurOffer offer = true →
          o_state offer = CreatedNeedsConfirmation →
          attempted (calls r) = [trades_sent (mapOffer offer)])
       ∧ (o_isOurOffer offer = true → o_state offer = Active →
          o_itemsToGive offer = [] →
          attempted (calls r) = [trades_sent (mapOffer offer)])
       ∧ (o_isOurOffer offer = true → o_state offer = Active →
          o_itemsToGive offer ≠ [] →
          attempted (calls r) = [trades_changed (mapOffer offer) None])
       ∧ (o_isOurOffer offer = true →
          o_state offer ≠ CreatedNeedsConfirmation →
          o_state offer ≠ Active →
          attempted (calls r) = [trades_changed (mapOffer offer) None]))
  ∧ (delivered (calls r) = [] ∨ delivered (calls r) = attempted (calls r)).
Proof.
  cbv zeta. split; [apply on_live_publishOffer |].
  split.
  { destruct n; simpl; split; eauto; try done; by intros (? & ?). }
  rewrite on_live_publishOffer.
  destruct (publish_one_call (live_offer n) (live_oldState n)) as (e & He & _).
  destruct (publishOffer_attempted _ _ e w He) as (Ha & Hf).
  split; [by rewrite Ha |]. split; [done |].
  split.
  { intros pd.
    destruct (publishOffer_attempted _ _ e (set_pollData pd w) He) as (-> & _).
    done. }
  split; [apply publishOffer_marker |].
  assert (Hev : ∀ e', publish (live_offer n) (live_oldState n)
                      = eventsService_publish e' →
                      attempted (calls (publishOffer (live_offer n)
                                          (live_oldState n) w)) = [e']).
  { intros e' He'. by destruct (publishOffer_attempted _ _ e' w He'). }
  split.
  { intros offer P [-> | ->]; apply Hev, publish_with_prior. }
  split.
  { intros offer ->. simpl in Hev.
    destruct (publish_without_prior offer) as (R1 & R2 & R3 & R4 & R5 & R6).
    repeat split; intros; apply Hev; auto. }
  destruct (publishOffer_run (live_offer n) (live_oldState n) w)
    as (e' & _ & ->).
  destruct (channel w (attempts w)); [by left | by right].
Qed.

(** ** Failures in the sweep *)

Lemma publishOffer_frame (offer : Offer) (oldState : option ETradeOfferState)
    (w : World) :
  channel (world_after (publishOffer offer oldState w)) = channel w
  ∧ steam (world_after (publishOffer offer oldState w)) = steam w
  ∧ (channel w (attempts w) ≠ None →
       pollData (world_after (publishOffer offer oldState w)) = pollData w).
Proof.
  destruct (publishOffer_run offer oldState w) as (e & _ & ->).
  by destruct (channel w (attempts w)).
Qed.

(** What a pushed task leaves behind. *)
Lemma pushed_run (task : EnsureOfferPublishedTask) (w : World) :
  settled (pushed task w) = Resolved tt
  ∧ channel (world_after (pushed task w)) = channel w
  ∧ steam (world_after (pushed task w)) = steam w
  ∧ ((∀ k, channel w k ≠ None) →
       pollData (world_after (pushed task w)) = pollData w)
  ∧ (already_published (pollData w) (task_id task) = false →
       CallGetOffer (task_id task) ∈ calls (pushed task w)).
Proof.
  unfold pushed, catch. rewrite ensureOfferPublished_run.
  destruct (already_published (pollData w) (task_id task)).
  { unfold settled, world_after, calls. simpl. repeat split; done. }
  destruct (fetch_reply w (task_id task)) as [err|offer].
  { unfold settled, world_after, calls, logger. simpl.
    repeat split; try done. intros _. apply list_elem_of_here. }
  cbv zeta.
  destruct (opt_state_eqb (Some (o_state offer))
              (read_published (pollData w) (o_id offer))).
  { unfold settled, world_after, calls. simpl.
    repeat split; try done. intros _. apply list_elem_of_here. }
  rewrite publishOffer_resolves.
  destruct (publishOffer_frame offer
              (read_published (pollData w) (o_id offer)) w) as (F1 & F2 & F3).
  unfold settled at 1, world_after at 1 3 5, calls at 1. simpl.
  repeat split; try done.
  - intros Hdown. apply F3, Hdown.
  - intros _. apply list_elem_of_here.
Qed.

Lemma run_queue_resolves (tasks : list EnsureOfferPublishedTask) (w : World) :
  settled (run_queue tasks w) = Resolved tt.
Proof.
  revert w. induction tasks as [|task rest IH]; intros w; [done |].
  simpl. unfold and_then.
  destruct (pushed_run task w) as (Hp & _).
  destruct (pushed task w) as [[r w1] t1]. unfold settled in Hp. simpl in Hp.
  subst r. specialize (IH w1).
  destruct (run_queue rest w1) as [[r2 w2] t2]. done.
Qed.

(** With the channel down for good, the worker still reaches every task of
    the sweep that is not published yet. *)
Lemma run_queue_channel_down (tasks : list EnsureOfferPublishedTask) (w : World) :
  (∀ k, channel w k ≠ None) →
  ∀ task, task ∈ tasks →
    already_published (pollData w) (task_id task) = false →
    CallGetOffer (task_id task) ∈ calls (run_queue tasks w).
Proof.
  revert w. induction tasks as [|t rest IH]; intros w Hdown task Hin Hnew.
  { by apply elem_of_nil in Hin. }
  simpl. unfold and_then.
  destruct (pushed_run t w) as (Hp & Hc & _ & Hpd & Hfetch).
  specialize (Hpd Hdown).
  destruct (pushed t w) as [[r w1] t1].
  unfold settled, world_after, calls in *. simpl in *. subst r.
  assert (Hdown1 : ∀ k, channel w1 k ≠ None) by (rewrite Hc; exact Hdown).
  specialize (IH w1 Hdown1 task).
  destruct (run_queue rest w1) as [[r2 w2] t2]. simpl in *.
  apply elem_of_app.
  apply elem_of_cons in Hin as [-> | Hin].
  - left. by apply Hfetch.
  - right. apply IH; [done | by rewrite Hpd].
Qed.

Example sweep_survives_failures :
  let r := run_queue [mkTask "5001"; mkTask "5003"; mkTask "5002"]
             (sample_world channel_down) in
  settled r = Resolved tt
  ∧ filter (fun a => is_fetch a = true) (calls r)
    = [CallGetOffer "5001"; CallGetOffer "5003"; CallGetOffer "5002"]
  ∧ attempted (calls r)
    = [trades_received (mapOffer incoming_offer);
       trades_changed (mapOffer accepted_offer) None].
Proof. by vm_compute. Qed.

(** C7: a refused publish is swallowed in both entry points. The promise of
    [publishOffer], and so of a live handler, resolves whatever the channel
    answers, the refusal being logged as a warning; the sweep's queue
    resolves for every list of tasks; and with the channel refusing
    everything the worker still fetches every task of the sweep that is not
    published yet. *)
Theorem publish_failure_is_swallowed
    (offer : Offer) (oldState : option ETradeOfferState)
    (n : LiveNotification) (tasks : list EnsureOfferPublishedTask) (w : World) :
  settled (publishOffer offer oldState w) = Resolved tt
  ∧ settled (on_live n w) = Resolved tt
  ∧ (∀ err, channel w (attempts w) = Some err →
       ∃ e, calls (publishOffer offer oldState w)
            = [CallPublish e false;
               Log LvlWarn "Error publishing offer: " (Some (RawError err))])
  ∧ settled (run_queue tasks w) = Resolved tt
  ∧ ((∀ k, channel w k ≠ None) →
       ∀ task, task ∈ tasks →
         already_published (pollData w) (task_id task) = false →
         CallGetOffer (task_id task) ∈ calls (run_queue tasks w)).
Proof.
  split; [apply publishOffer_resolves |].
  split; [rewrite on_live_publishOffer; apply publishOffer_resolves |].
  split.
  { intros err Herr.
    destruct (publishOffer_run offer oldState w) as (e & _ & ->).
    rewrite Herr. by exists e. }
  split; [apply run_queue_resolves |].
  apply run_queue_channel_down.
Qed.

(** ** The worker and a failed fetch *)

(** The worker itself rejects when the engine does not know the offer. *)
Lemma worker_rejects_unknown_offer :
  settled (ensureOfferPublished (mkTask "5003") stale_world)
  = Rejected (BadRequestException "Trade offer not found")
  ∧ calls (pushed (mkTask "5003") stale_world)
    = [CallGetOffer "5003";
       Log LvlWarn "Error ensuring offer published: "
         (Some (BadRequestException "Trade offer not found"))].
Proof. by vm_compute. Qed.

(** C4, amended: the promise of a pushed task, with the handler the sweep
    attaches to it, always resolves. The worker's own promise is rejected
    exactly when the offer is not already published by the poll data and the
    full fetch fails, with the fetch's error (a bad request "Trade offer not
    found" for an id the engine does not know, the engine's error
    otherwise); the sweep's handler then logs a warning. For every other
    outcome of the cheap lookup, the fetch and the publish the worker
    resolves. *)
Theorem worker_rejects_exactly_on_failed_fetch
    (task : EnsureOfferPublishedTask) (w : World) :
  settled (pushed task w) = Resolved tt
  ∧ (∀ e, settled (ensureOfferPublished task w) = Rejected e ↔
          already_published (pollData w) (task_id task) = false
          ∧ ∃ err, fetch_reply w (task_id task) = inl err
                   ∧ e = fetch_error err)
  ∧ (∀ e, settled (ensureOfferPublished task w) = Rejected e →
          calls (pushed task w)
          = [CallGetOffer (task_id task);
             Log LvlWarn "Error ensuring offer published: " (Some e)])
  ∧ (steam w !! task_id task = None →
       already_published (pollData w) (task_id task) = false →
       settled (ensureOfferPublished task w)
       = Rejected (BadRequestException "Trade offer not found")).
Proof.
  split; [apply pushed_run |].
  unfold pushed, catch. rewrite ensureOfferPublished_run.
  destruct (already_published (pollData w) (task_id task)).
  { unfold settled. simpl. repeat split; try done. by intros (? & _). }
  unfold fetch_reply.
  destruct (steam w !! task_id task) as [[err|offer]|] eqn:Hs.
  - unfold settled, calls, logger. simpl. repeat split.
    + injection H as <-. eauto.
    + intros (_ & err' & [= <-] & ->). done.
    + by intros e [= <-].
    + done.
  - cbv zeta.
    destruct (opt_state_eqb (Some (o_state offer))
                (read_published (pollData w) (o_id offer))).
    + unfold settled. simpl. repeat split; try done.
      by intros (_ & ? & ? & _).
    + rewrite publishOffer_resolves. unfold settled at 1 2. simpl.
      repeat split; try done. by intros (_ & ? & ? & _).
  - unfold settled, calls, logger. simpl. repeat split.
    + injection H as <-. eauto.
    + intros (_ & err' & [= <-] & ->). done.
    + by intros e [= <-].
Qed.

(** ** Removing an offer *)

Lemma removal_blocked_iff (s : ETradeOfferState) :
  removal_blocked s = true ↔ s = Active.
Proof. unfold removal_blocked. destruct s; simpl; split; done. Qed.

Example removeTrade_active_offer :
  let r := removeTrade "5001" (sample_world channel_up) in
  settled r = Rejected (BadRequestException "Offer is not active")
  ∧ calls r
    = [Log LvlDebug "Removing trade offer #" None;
       CallGetOffer "5001";
       Log LvlError "Error while removing trade offer #"
         (Some (BadRequestException "Offer is not active"))].
Proof. by vm_compute. Qed.

Example removeTrade_accepted_offer :
  let r := removeTrade "5002" (sample_world channel_up) in
  settled r = Resolved (mapOffer (with_state Canceled accepted_offer))
  ∧ filter (fun a => is_cancel a = true) (calls r) = [CallCancel "5002"].
Proof. by vm_compute. Qed.

(** C10: in [removeTrade] the second conjunct of the guard holds whenever the
    first does, so the guard is satisfied by every fetched offer whose state
    is Active: the operation rejects it with the bad request "Offer is not
    active" without calling the cancellation, and the cancellation is called
    only for offers whose state is not Active. *)
Theorem removeTrade_rejects_active (offer_id : string) (w : World) :
  let r := removeTrade offer_id w in
  (∀ s, state_eqb s Active = true →
        negb (state_eqb s CreatedNeedsConfirmation) = true)
  ∧ (∀ offer, fetch_reply w offer_id = inr offer → o_state offer = Active →
       settled r = Rejected (BadRequestException "Offer is not active")
       ∧ filter (fun a => is_cancel a = true) (calls r) = [])
  ∧ (filter (fun a => is_cancel a = true) (calls r) ≠ [] →
       ∃ offer, fetch_reply w offer_id = inr offer
                ∧ o_state offer ≠ Active
                ∧ filter (fun a => is_cancel a = true) (calls r)
                  = [CallCancel (o_id offer)]).
Proof.
  simpl. split; [by intros [] |].
  unfold removeTrade, and_then, catch, manager_getOffer, logger, reject.
  cbv beta iota.
  destruct (fetch_reply w offer_id) as [err|offer].
  { split; [done |].
    destruct (String.eqb (err_message err) "NoMatch");
      unfold calls; simpl; by intros []. }
  fold (removal_blocked (o_state offer)).
  destruct (removal_blocked (o_state offer)) eqn:Hg.
  - split.
    + intros ? [= <-] _. done.
    + unfold calls. simpl. by intros [].
  - assert (Hne : o_state offer ≠ Active).
    { intros Ha. apply removal_blocked_iff in Ha. congruence. }
    split; [by intros ? [= <-] ? |].
    intros _. exists offer. split; [done |]. split; [done |].
    unfold offer_cancel, resolve, calls. cbv beta iota.
    destruct (cancel_reply w offer) as [cerr|cancelled]; [| done].
    destruct (String.eqb (err_message cerr) _); [done |].
    by destruct (err_eresult cerr).
Qed.

(** ** Errors of the API operations *)

Lemma getTrade_surfaces_errors (offer_id : string) (w : World) (err : JsError) :
  fetch_reply w offer_id = inl err →
  settled (getTrade offer_id w) = Rejected (fetch_error err).
Proof.
  intros H. unfold getTrade, and_then, catch. rewrite _getTrade_run, H.
  done.
Qed.

Lemma createTrade_surfaces_errors (dto : CreateTradeDto) (w : World)
    (err : JsError) :
  send_reply w dto = inl err →
  settled (createTrade dto w)
  = Rejected (if String.eqb (err_message err) "Cannot send an empty trade offer"
              then BadRequestException "Cannot send an empty trade offer"
              else engine_exn err).
Proof.
  intros H.
  unfold createTrade, and_then, catch, logger, offer_send, engine_exn.
  cbv beta iota. rewrite H.
  destruct (String.eqb (err_message err) _); [done |].
  by destruct (err_eresult err).
Qed.

Lemma removeTrade_surfaces_errors (offer_id : string) (w : World)
    (err : JsError) :
  fetch_reply w offer_id = inl err →
  settled (removeTrade offer_id w) = Rejected (fetch_error err).
Proof.
  intros H.
  unfold removeTrade, and_then, catch, logger, manager_getOffer, fetch_error.
  cbv beta iota. rewrite H.
  by destruct (String.eqb (err_message err) "NoMatch").
Qed.

(** Whatever the confirmation call answers, [acceptConfirmation] resolves. *)
Lemma acceptConfirmation_always_resolves (offer_id : string) (w : World) :
  settled (acceptConfirmation offer_id w) = Resolved tt.
Proof.
  unfold acceptConfirmation, and_then, catch, logger, manager_doPoll,
    community_acceptConfirmationForObject.
  cbv beta iota.
  destruct (confirm_reply w offer_id) as [err|]; [| done].
  by destruct (String.eqb (err_message err) _).
Qed.

Example siblings_reject :
  settled (getTrade "5003" stale_world)
  = Rejected (BadRequestException "Trade offer not found")
  ∧ settled (createTrade (mkDto "76561198000000001" None None [] [])
               unconfirmed_world)
    = Rejected (EResultException "Limit Exceeded" 25)
  ∧ settled (removeTrade "5002" unconfirmed_world)
    = Rejected (EResultException "Access Denied" 15).
Proof. by vm_compute. Qed.

(** C8, at the failing input: the confirmation call reports that offer 5002
    has no confirmation; [acceptConfirmation] builds the NotFoundException,
    logs it and resolves, where [getTrade], [createTrade] and [removeTrade]
    log and reject. *)
Theorem acceptConfirmation_swallows_not_found :
  let r := acceptConfirmation "5002" unconfirmed_world in
  settled r = Resolved tt
  ∧ calls r
    = [Log LvlLog "Accepting confirmation for offer #" None;
       CallAcceptConfirmation "5002";
       Log LvlError "Error while accepting confirmation for "
         (Some (NotFoundException "Confirmation not found"))].
Proof. by vm_compute. Qed.

(** ** Reconciling twice *)

(** What a delivered event says about the first run of the worker. *)
Lemma ensureOfferPublished_delivered (task : EnsureOfferPublishedTask)
    (w : World) :
  delivered (calls (ensureOfferPublished task w)) ≠ [] →
  ∃ offer,
    fetch_reply w (task_id task) = inr offer
    ∧ world_after (ensureOfferPublished task w)
      = set_pollData
          (write_published (pollData w) (o_id offer) (o_state offer))
          (set_attempts (S (attempts w)) w).
Proof.
  rewrite ensureOfferPublished_run.
  destruct (already_published (pollData w) (task_id task)); [by intros [] |].
  destruct (fetch_reply w (task_id task)) as [err|offer]; [by intros [] |].
  cbv zeta.
  destruct (opt_state_eqb (Some (o_state offer))
              (read_published (pollData w) (o_id offer))); [by intros [] |].
  destruct (publishOffer_run offer (read_published (pollData w) (o_id offer)) w)
    as (e & _ & ->).
  destruct (channel w (attempts w)); [by intros [] |].
  intros _. by exists offer.
Qed.

(** With the poll data lagging, the second run fetches the offer again. *)
Lemma lagging_second_run_fetches :
  let r1 := ensureOfferPublished (mkTask "5002") lagging_world in
  let r2 := ensureOfferPublished (mkTask "5002") (world_after r1) in
  delivered (calls r1) = [trades_changed (mapOffer accepted_offer) None]
  ∧ cheap_state (pollData (world_after r1)) "5002" = Some Active
  ∧ read_published (pollData (world_after r1)) "5002" = Some Accepted
  ∧ calls r2 = [CallGetOffer "5002"].
Proof. by vm_compute. Qed.

(** C2, amended: when the worker runs twice in a row for an offer and the
    first run's publish succeeded, the second run publishes nothing and
    resolves. It makes no call at all exactly when the state the poll data
    holds for the id equals the marker, which is the case when the poll data
    holds the state of the fetched offer; otherwise its only call is one
    fetch, after which the second check returns. *)
Theorem second_run_publishes_nothing
    (task : EnsureOfferPublishedTask) (w : World) :
  let r1 := ensureOfferPublished task w in
  let r2 := ensureOfferPublished task (world_after r1) in
  delivered (calls r1) ≠ [] →
  attempted (calls r2) = []
  ∧ settled r2 = Resolved tt
  ∧ pollData (world_after r2) = pollData (world_after r1)
  ∧ (calls r2 = [] ↔
       ∃ c, cheap_state (pollData w) (task_id task) = Some c
            ∧ read_published (pollData (world_after r1)) (task_id task)
              = Some c)
  ∧ (calls r2 ≠ [] → calls r2 = [CallGetOffer (task_id task)])
  ∧ (∀ offer, fetch_reply w (task_id task) = inr offer →
       o_id offer = task_id task →
       cheap_state (pollData w) (task_id task) = Some (o_state offer) →
       calls r2 = []).
Proof.
  intros r1 r2 Hd. subst r1 r2.
  destruct (ensureOfferPublished_delivered task w Hd) as (offer & Hf & ->).
  set (w1 := set_pollData _ _).
  assert (Hf1 : fetch_reply w1 (task_id task) = inr offer) by exact Hf.
  assert (Hcheap : ∀ k, cheap_state (pollData w1) k = cheap_state (pollData w) k)
    by done.
  assert (Hm : read_published (pollData w1) (o_id offer) = Some (o_state offer))
    by apply read_write_published.
  pose proof (already_published_spec (pollData w1) (task_id task)) as Hspec.
  fold (cheap_state (pollData w1) (task_id task)) in Hspec.
  rewrite Hcheap in Hspec.
  rewrite ensureOfferPublished_run.
  destruct (already_published (pollData w1) (task_id task)) eqn:Hap.
  { unfold calls, settled, world_after. simpl.
    repeat split; try done.
    intros _. by apply Hspec. }
  rewrite Hf1. cbv zeta. rewrite Hm.
  rewrite (proj2 (opt_state_eqb_eq _ _) eq_refl).
  unfold calls, settled, world_after. simpl.
  repeat split; try done.
  - intros Hex. apply Hspec in Hex. done.
  - intros offer' Hf' Hid Hc.
    rewrite Hf in Hf'. injection Hf' as <-.
    assert (false = true); [| done].
    apply Hspec. exists (o_state offer).
    split; [done |]. by rewrite <- Hid.
Qed.

(** The worker on the received sample offer, twice: published, then
    nothing. *)
Lemma second_run_publishes_nothing_sample :
  let w := sample_world channel_up in
  let r1 := ensureOfferPublished (mkTask "5001") w in
  delivered (calls r1) ≠ []
  ∧ calls (ensureOfferPublished (mkTask "5001") (world_after r1)) = [].
Proof.
  assert (Hd : delivered (calls (ensureOfferPublished (mkTask "5001")
                                   (sample_world channel_up))) ≠ [])
    by (vm_compute; discriminate).
  split; [exact Hd |].
  destruct (second_run_publishes_nothing (mkTask "5001")
              (sample_world channel_up) Hd) as (_ & _ & _ & _ & _ & Hfast).
  apply (Hfast incoming_offer); reflexivity.
Defined.

(** ** The debounce *)


Lemma sweep_timers (s : Service) :
  timers (sweep s) = timers s
  ∧ ensurePollDataTimeout (sweep s) = ensurePollDataTimeout s.
Proof. done. Qed.

Lemma advance_armed (t : Z) (s : Service) : armed s → armed (advance t s).
Proof.
  unfold advance.
  intros [H | (h & d & H & He)]; rewrite H.
  - by left.
  - rewrite !filter_cons, !filter_nil. simpl.
    repeat case_decide; try lia; simpl.
    + right. by exists h, d.
    + by left.
Qed.

Lemma ensurePollData_armed (s : Service) : armed s → armed (ensurePollData s).
Proof.
  unfold ensurePollData.
  intros [H | (h & d & H & He)]; right.
  - destruct (ensurePollDataTimeout s) as [h0|]; simpl; rewrite H; simpl;
      eauto.
  - rewrite He. simpl. rewrite H.
    rewrite filter_cons, filter_nil. simpl.
    case_decide; [done |]. simpl. eauto.
Qed.

Lemma run_calls_armed (ts : list Z) (s : Service) :
  armed s → armed (run_calls ts s).
Proof.
  revert s. induction ts as [|t ts IH]; intros s Hs; [done |].
  simpl. apply IH. by apply ensurePollData_armed, advance_armed.
Qed.

Lemma first_call_waits (t : Z) (s : Service) :
  timers s = [] → now s ≤ t → waiting t s (pollData_event t s).
Proof.
  intros Ht Hnow. unfold pollData_event, ensurePollData, advance, waiting.
  rewrite Ht. simpl.
  destruct (ensurePollDataTimeout s) as [h0|]; simpl; rewrite ?Ht; simpl.
  - repeat split; try lia. exists (next_handle s).
    split; [| done]. do 2 f_equal. lia.
  - repeat split; try lia. exists (next_handle s).
    split; [| done]. do 2 f_equal. lia.
Qed.

Lemma next_call_waits (t0 t : Z) (s0 s : Service) :
  waiting t0 s0 s → t0 ≤ t → t < t0 + 1000 →
  waiting t s0 (pollData_event t s).
Proof.
  intros (Hnow & (h & Ht & He) & Hq & Hl & Hp) Hle Hlt.
  unfold pollData_event, ensurePollData, advance, waiting.
  rewrite Ht. rewrite !filter_cons, !filter_nil. simpl.
  repeat case_decide; try lia. simpl. rewrite He. simpl.
  rewrite filter_cons, filter_nil. simpl.
  case_decide; [done |]. simpl.
  repeat split; try done; try lia.
  exists (next_handle s). split; [| done]. do 2 f_equal. lia.
Qed.

Lemma last_cons_default (ts : list Z) (t t0 : Z) :
  List.last (t :: ts) t0 = List.last ts t.
Proof.
  revert t t0. induction ts as [|a ts IH]; intros t t0; [done |].
  change (List.last (t :: a :: ts) t0) with (List.last (a :: ts) t0).
  by rewrite !IH.
Qed.

Lemma burst_waits (ts : list Z) (t0 : Z) (s0 s : Service) :
  waiting t0 s0 s → within_quiet_interval t0 ts →
  waiting (List.last ts t0) s0 (run_calls ts s).
Proof.
  revert t0 s. induction ts as [|t ts IH]; intros t0 s Hw Hq; [done |].
  destruct Hq as (Hle & Hlt & Hq).
  change (run_calls (t :: ts) s) with (run_calls ts (pollData_event t s)).
  replace (List.last (t :: ts) t0) with (List.last ts t).
  - apply IH; [by apply (next_call_waits t0) | done].
  - symmetry. apply last_cons_default.
Qed.

Lemma sweep_log_counts : is_sweep_log (Log LvlDebug sweep_message None) = true.
Proof. done. Qed.

(** Before the quiet interval is over nothing fires. *)
Lemma waiting_quiet (t0 T : Z) (s0 s : Service) :
  waiting t0 s0 s → T < t0 + 1000 →
  queue (advance T s) = queue s0 ∧ sweep_count (advance T s) = sweep_count s0.
Proof.
  intros (Hnow & (h & Ht & He) & Hq & Hl & Hp) Hlt.
  unfold advance, sweep_count. rewrite Ht.
  rewrite !filter_cons, !filter_nil. simpl.
  repeat case_decide; try lia. simpl. by rewrite Hq, Hl.
Qed.

(** Once it is over the one timeout fires: one sweep. *)
Lemma waiting_fires (t0 T : Z) (s0 s : Service) :
  waiting t0 s0 s → t0 + 1000 ≤ T →
  timers (advance T s) = []
  ∧ queue (advance T s) = (queue s0 ++ sweep_tasks (svc_pollData s0))%list
  ∧ sweep_count (advance T s) = S (sweep_count s0).
Proof.
  intros (Hnow & (h & Ht & He) & Hq & Hl & Hp) Hle.
  unfold advance, sweep_count. rewrite Ht.
  rewrite !filter_cons, !filter_nil. simpl.
  repeat case_decide; try lia. simpl.
  rewrite Hq, Hl, Hp. split; [done |]. split; [done |].
  rewrite filter_app, length_app. simpl. lia.
Qed.

Lemma object_keys_dom {V} (obj : gmap string V) (k : string) :
  k ∈ object_keys obj ↔ k ∈ dom obj.
Proof.
  unfold object_keys. rewrite elem_of_dom, list_elem_of_fmap. split.
  - intros ([k' v] & -> & Hin). apply elem_of_map_to_list in Hin. eauto.
  - intros [v Hv]. exists (k, v). split; [done |].
    by apply elem_of_map_to_list.
Qed.

Lemma object_keys_NoDup {V} (obj : gmap string V) : NoDup (object_keys obj).
Proof. apply NoDup_fst_map_to_list. Qed.

Lemma sweep_tasks_ids (pd : PollData) :
  task_id <$> sweep_tasks pd
  = (object_keys (sent pd) ++ object_keys (received pd))%list.
Proof.
  unfold sweep_tasks.
  induction (object_keys (sent pd) ++ object_keys (received pd))%list
    as [|k l IH]; [done |].
  rewrite !fmap_cons. by rewrite IH.
Qed.


(** No id twice, as long as no id is listed both as sent and as received. *)
Lemma sweep_tasks_NoDup (pd : PollData) :
  dom (sent pd) ## dom (received pd) →
  NoDup (task_id <$> sweep_tasks pd).
Proof.
  intros Hdisj. rewrite sweep_tasks_ids. apply NoDup_app.
  split; [apply object_keys_NoDup |].
  split; [| apply object_keys_NoDup].
  intros k Hs Hr. apply object_keys_dom in Hs, Hr. set_solver.
Qed.

Example sample_burst :
  let s := new_service (pollData (sample_world channel_up)) in
  let burst := run_calls [0; 300; 900; 1500] s in
  timers burst = [(3%nat, 2500)]
  ∧ queue (advance 2499 burst) = []
  ∧ task_id <$> queue (advance 2500 burst) = ["5002"; "5001"]
  ∧ sweep_count (advance 2500 burst) = 1%nat.
Proof. by vm_compute. Qed.

(** Two bursts further apart than the quiet interval: two sweeps. *)
Example sample_two_bursts :
  let s := new_service (pollData (sample_world channel_up)) in
  sweep_count (advance 9000 (run_calls [0; 300; 1300; 1600] s)) = 2%nat.
Proof. by vm_compute. Qed.















(** * Further properties *)

(** ** The worker, case by case *)

Lemma ensureOfferPublished_path (task : EnsureOfferPublishedTask) (w : World) :
  WorkerPath task w (ensureOfferPublished task w).
Proof.
  rewrite ensureOfferPublished_run.
  destruct (already_published (pollData w) (task_id task)) eqn:Hap.
  { by constructor. }
  destruct (fetch_reply w (task_id task)) as [err|offer] eqn:Hf.
  { by constructor. }
  cbv zeta.
  destruct (opt_state_eqb (Some (o_state offer))
              (read_published (pollData w) (o_id offer))) eqn:Heq.
  { apply opt_state_eqb_eq in Heq. by apply (path_marked _ _ offer). }
  assert (Hne : read_published (pollData w) (o_id offer) ≠ Some (o_state offer)).
  { intros Hm. symmetry in Hm. apply opt_state_eqb_eq in Hm. congruence. }
  destruct (publishOffer_run offer (read_published (pollData w) (o_id offer)) w)
    as (e & He & ->).
  unfold settled, world_after, calls.
  destruct (channel w (attempts w)) as [err|] eqn:Hc; simpl.
  - by apply (path_refused _ _ offer e err).
  - by apply (path_published _ _ offer e).
Qed.

Lemma read_write_published_ne (pd : PollData) (k k' : string)
    (s : ETradeOfferState) :
  k ≠ k' → read_published (write_published pd k s) k' = read_published pd k'.
Proof.
  intros Hne. unfold read_published, write_published. simpl.
  rewrite lookup_insert_ne by done.
  destruct (offerData pd); simpl; [done |].
  by rewrite lookup_empty.
Qed.

Ltac worker_paths task w :=
  let P := fresh "P" in
  let r := fresh "r" in
  let Hr := fresh "Hr" in
  pose proof (ensureOfferPublished_path task w) as P;
  remember (ensureOfferPublished task w) as r eqn:Hr in *;
  destruct P; clear Hr;
  unfold settled, world_after, calls, marked in *; simpl in *.

(** X1: the worker hands nothing to the channel, or one event: the snapshot of
    the fetched offer, whose marker differs from its state. *)
Theorem worker_publishes_only_unmarked
    (task : EnsureOfferPublishedTask) (w : World) :
  let r := ensureOfferPublished task w in
  attempted (calls r) = []
  ∨ ∃ offer e,
      fetch_reply w (task_id task) = inr offer
      ∧ read_published (pollData w) (o_id offer) ≠ Some (o_state offer)
      ∧ attempted (calls r) = [e]
      ∧ event_offer e = mapOffer offer.
Proof.
  cbv zeta. worker_paths task w; try (by left).
  - right. exists offer, e. repeat split; try done.
    destruct (publish_one_call offer
                (read_published (pollData w) (o_id offer))) as (e' & He' & Ho).
    rewrite He' in H2. by apply eventsService_publish_inj in H2 as <-.
  - right. exists offer, e. repeat split; try done.
    destruct (publish_one_call offer
                (read_published (pollData w) (o_id offer))) as (e' & He' & Ho).
    rewrite He' in H2. by apply eventsService_publish_inj in H2 as <-.
Qed.

(** X2: the worker changes nothing of the world but the channel's count and
    one marker: the lists of sent and received offers and the engine's
    offers stay as they are, and a marker that reads differently afterwards
    is the marker of the fetched offer, now its state, after a delivery. *)
Theorem worker_touches_one_marker
    (task : EnsureOfferPublishedTask) (w : World) :
  let r := ensureOfferPublished task w in
  sent (pollData (world_after r)) = sent (pollData w)
  ∧ received (pollData (world_after r)) = received (pollData w)
  ∧ steam (world_after r) = steam w
  ∧ channel (world_after r) = channel w
  ∧ (∀ k, read_published (pollData (world_after r)) k
          ≠ read_published (pollData w) k →
       ∃ offer, fetch_reply w (task_id task) = inr offer
                ∧ k = o_id offer
                ∧ read_published (pollData (world_after r)) k
                  = Some (o_state offer)
                ∧ delivered (calls r) ≠ []).
Proof.
  cbv zeta. worker_paths task w; repeat split; try done.
  intros k Hk. exists offer.
  destruct (decide (o_id offer = k)) as [<- | Hne].
  - rewrite read_write_published. done.
  - by rewrite read_write_published_ne in Hk.
Qed.

(** X3: when the channel refused the event of a run and accepts the next
    one, the next run of the worker delivers that same event and marks the
    offer. *)
Theorem refused_publish_is_retried
    (task : EnsureOfferPublishedTask) (w : World) :
  let r1 := ensureOfferPublished task w in
  let r2 := ensureOfferPublished task (world_after r1) in
  attempted (calls r1) ≠ [] →
  delivered (calls r1) = [] →
  channel w (S (attempts w)) = None →
  delivered (calls r2) = attempted (calls r1)
  ∧ pollData (world_after r1) = pollData w
  ∧ ∃ offer, fetch_reply w (task_id task) = inr offer
             ∧ read_published (pollData (world_after r2)) (o_id offer)
               = Some (o_state offer).
Proof.
  cbv zeta. intros Ha Hd Hnext.
  worker_paths task w; try done.
  set (w1 := set_attempts (S (attempts w)) w).
  assert (Hpd : pollData w1 = pollData w) by done.
  assert (Hfr : fetch_reply w1 (task_id task) = inr offer) by done.
  pose proof (ensureOfferPublished_run task w1) as Hrun.
  rewrite Hpd, H, Hfr in Hrun. cbv zeta in Hrun.
  destruct (opt_state_eqb (Some (o_state offer))
              (read_published (pollData w) (o_id offer))) eqn:Heq.
  { apply opt_state_eqb_eq in Heq. congruence. }
  destruct (publishOffer_run offer (read_published (pollData w) (o_id offer)) w1)
    as (e' & He' & Hp).
  rewrite H2 in He'. apply eventsService_publish_inj in He' as <-.
  rewrite Hp in Hrun. simpl in Hrun. rewrite Hnext in Hrun.
  rewrite Hrun. simpl. repeat split; try done.
  exists offer. split; [done |]. apply read_write_published.
Qed.

Lemma refused_publish_is_retried_sample :
  let w := sample_world channel_flaky in
  let r1 := ensureOfferPublished (mkTask "5001") w in
  let r2 := ensureOfferPublished (mkTask "5001") (world_after r1) in
  delivered (calls r1) = []
  ∧ delivered (calls r2) = [trades_received (mapOffer incoming_offer)].
Proof.
  split; [reflexivity |].
  destruct (refused_publish_is_retried (mkTask "5001")
              (sample_world channel_flaky)) as (H & _).
  - vm_compute. discriminate.
  - reflexivity.
  - reflexivity.
  - exact H.
Defined.

(** ** Live notifications and the sweep together *)

(** X4: once a live notification of an offer was delivered, a sweep task for
    that offer does nothing (no fetch, no publish), provided the poll data
    holds the offer's state. *)
Theorem sweep_after_live_is_silent (n : LiveNotification) (w : World) :
  channel w (attempts w) = None →
  cheap_state (pollData w) (o_id (live_offer n)) = Some (o_state (live_offer n)) →
  ensureOfferPublished (mkTask (o_id (live_offer n))) (world_after (on_live n w))
  = (Resolved tt, world_after (on_live n w), []).
Proof.
  intros Hc Hcheap. rewrite on_live_publishOffer.
  destruct (publishOffer_run (live_offer n) (live_oldState n) w) as (e & _ & ->).
  rewrite Hc. unfold world_after. cbn [fst snd].
  set (w1 := set_pollData _ _).
  assert (Hap : already_published (pollData w1) (o_id (live_offer n)) = true).
  { apply already_published_spec. exists (o_state (live_offer n)).
    split; [exact Hcheap | apply read_write_published]. }
  rewrite ensureOfferPublished_run. cbn [task_id]. by rewrite Hap.
Qed.

Lemma sweep_after_live_is_silent_sample :
  let w1 := world_after (on_live (newOffer incoming_offer)
                           (sample_world channel_up)) in
  ensureOfferPublished (mkTask "5001") w1 = (Resolved tt, w1, []).
Proof.
  apply (sweep_after_live_is_silent (newOffer incoming_offer)
           (sample_world channel_up)); reflexivity.
Defined.

(** X5: a sweep task that finds the fetched offer marked with another state
    P publishes trades.changed with oldState P. *)
Theorem sweep_reports_marker_as_old_state
    (task : EnsureOfferPublishedTask) (w : World) (offer : Offer)
    (P : ETradeOfferState) :
  already_published (pollData w) (task_id task) = false →
  fetch_reply w (task_id task) = inr offer →
  read_published (pollData w) (o_id offer) = Some P →
  P ≠ o_state offer →
  attempted (calls (ensureOfferPublished task w))
  = [trades_changed (mapOffer offer) (Some P)].
Proof.
  intros Hap Hf Hm Hne. rewrite ensureOfferPublished_run, Hap, Hf.
  cbv zeta. rewrite Hm.
  destruct (opt_state_eqb (Some (o_state offer)) (Some P)) eqn:Heq.
  { apply opt_state_eqb_eq in Heq. congruence. }
  unfold calls at 1. simpl.
  assert (He : publish offer (Some P)
               = eventsService_publish (trades_changed (mapOffer offer) (Some P))).
  { unfold publish. by rewrite truthy_some. }
  by destruct (publishOffer_attempted offer (Some P) _ w He) as (-> & _).
Qed.

Lemma sweep_reports_marker_as_old_state_sample :
  attempted (calls (ensureOfferPublished (mkTask "5002") marked_active_world))
  = [trades_changed (mapOffer accepted_offer) (Some Active)].
Proof.
  apply (sweep_reports_marker_as_old_state (mkTask "5002") marked_active_world
           accepted_offer Active); [reflexivity | reflexivity | reflexivity |].
  discriminate.
Defined.

(** X6: a sweep task that finds the fetched offer without a marker does,
    after the fetch, exactly what the handler of a newOffer notification
    does: the same call to the channel, the same settlement, the same
    world. *)
Theorem sweep_heals_missed_new_offer
    (task : EnsureOfferPublishedTask) (w : World) (offer : Offer) :
  already_published (pollData w) (task_id task) = false →
  fetch_reply w (task_id task) = inr offer →
  read_published (pollData w) (o_id offer) = None →
  ensureOfferPublished task w
  = (settled (on_live (newOffer offer) w),
     world_after (on_live (newOffer offer) w),
     CallGetOffer (task_id task) :: calls (on_live (newOffer offer) w)).
Proof.
  intros Hap Hf Hm. rewrite ensureOfferPublished_run, Hap, Hf.
  cbv zeta. rewrite Hm. done.
Qed.

Lemma sweep_heals_missed_new_offer_sample :
  calls (ensureOfferPublished (mkTask "5001") (sample_world channel_up))
  = CallGetOffer "5001"
      :: calls (on_live (newOffer incoming_offer) (sample_world channel_up)).
Proof.
  by rewrite (sweep_heals_missed_new_offer (mkTask "5001")
                (sample_world channel_up) incoming_offer).
Defined.

(** X7: an offer of ours announced while it waits for confirmation and then
    reported Active with the prior state CreatedNeedsConfirmation is
    published as trades.sent followed by trades.changed with that prior
    state; with both events delivered the marker ends at Active. *)
Theorem sent_then_changed (offer : Offer) (w : World) :
  o_isOurOffer offer = true →
  o_state offer = CreatedNeedsConfirmation →
  let active := with_state Active offer in
  let r1 := on_live (newOffer offer) w in
  let r2 := on_live (sentOfferChanged active CreatedNeedsConfirmation)
              (world_after r1) in
  attempted (calls r1 ++ calls r2)
  = [trades_sent (mapOffer offer);
     trades_changed (mapOffer active) (Some CreatedNeedsConfirmation)]
  ∧ (channel w (attempts w) = None → channel w (S (attempts w)) = None →
       read_published (pollData (world_after r2)) (o_id offer) = Some Active).
Proof.
  intros Hours Hstate active r1 r2. subst r1 r2.
  rewrite !on_live_publishOffer. simpl live_offer. simpl live_oldState.
  assert (H1 : publish offer None = eventsService_publish (trades_sent (mapOffer offer))).
  { unfold publish. simpl. by rewrite Hours, Hstate. }
  assert (H2 : publish active (Some CreatedNeedsConfirmation)
               = eventsService_publish
                   (trades_changed (mapOffer active)
                      (Some CreatedNeedsConfirmation))) by done.
  split.
  - unfold attempted. rewrite omap_app. fold (attempted (calls (publishOffer offer None w))).
    destruct (publishOffer_attempted offer None _ w H1) as (-> & _).
    set (w1 := world_after _).
    fold (attempted (calls (publishOffer active (Some CreatedNeedsConfirmation) w1))).
    by destruct (publishOffer_attempted active _ _ w1 H2) as (-> & _).
  - intros Hc1 Hc2.
    destruct (publishOffer_run offer None w) as (e1 & _ & ->).
    rewrite Hc1. unfold world_after at 2. simpl.
    set (w1 := set_pollData _ _).
    destruct (publishOffer_run active (Some CreatedNeedsConfirmation) w1)
      as (e2 & _ & ->).
    simpl. rewrite Hc2. unfold world_after. simpl.
    apply (read_write_published _ (o_id offer) Active).
Qed.

Lemma sent_then_changed_sample :
  let offer := with_state CreatedNeedsConfirmation accepted_offer in
  let w := sample_world channel_up in
  let r1 := on_live (newOffer offer) w in
  let r2 := on_live (sentOfferChanged (with_state Active offer)
                       CreatedNeedsConfirmation) (world_after r1) in
  attempted (calls r1 ++ calls r2)
  = [trades_sent (mapOffer offer);
     trades_changed (mapOffer (with_state Active offer))
       (Some CreatedNeedsConfirmation)].
Proof.
  by destruct (sent_then_changed
                 (with_state CreatedNeedsConfirmation accepted_offer)
                 (sample_world channel_up) eq_refl eq_refl) as (H & _).
Defined.

(** ** What an event tells *)

(** X8: the kind of the event tells where the offer stands. trades.received
    goes out only for an Active offer that is not ours, with no prior state;
    trades.sent only for an offer of ours with no prior state that waits for
    confirmation or is Active with nothing to give; trades.changed with a
    non-null oldState only with that prior state. *)
Theorem event_kind_tells_origin
    (offer : Offer) (prior : option ETradeOfferState) (w : World) :
  let events := attempted (calls (publish offer prior w)) in
  (∀ t, events = [trades_received t] →
        o_isOurOffer offer = false ∧ o_state offer = Active ∧ prior = None)
  ∧ (∀ t, events = [trades_sent t] →
        o_isOurOffer offer = true ∧ prior = None
        ∧ (o_state offer = CreatedNeedsConfirmation
           ∨ o_state offer = Active ∧ o_itemsToGive offer = []))
  ∧ (∀ t P, events = [trades_changed t (Some P)] → prior = Some P).
Proof.
  cbv zeta. unfold publish.
  destruct prior as [P0|].
  { rewrite truthy_some. cbv iota; rewrite eventsService_publish_run.
    unfold calls. simpl. repeat split; try done. intros t P [= _ ->]. done. }
  cbn [truthy].
  destruct (o_isOurOffer offer); cbn [negb].
  - destruct (state_eqb (o_state offer) CreatedNeedsConfirmation) eqn:E9.
    { apply state_eqb_eq in E9. cbv iota; rewrite eventsService_publish_run.
      unfold calls. simpl. repeat split; try done. by left. }
    destruct (state_eqb (o_state offer) Active) eqn:E2; cbn [andb].
    + apply state_eqb_eq in E2.
      destruct (o_itemsToGive offer) as [|i l] eqn:Hi; simpl;
        cbv iota; rewrite eventsService_publish_run; unfold calls; simpl;
        repeat split; try done.
      right. done.
    + cbv iota; rewrite eventsService_publish_run. unfold calls. simpl.
      repeat split; done.
  - destruct (state_eqb (o_state offer) Active) eqn:E2.
    + apply state_eqb_eq in E2. cbv iota; rewrite eventsService_publish_run.
      unfold calls. simpl. repeat split; done.
    + cbv iota; rewrite eventsService_publish_run. unfold calls. simpl.
      repeat split; done.
Qed.

(** ** A whole sweep *)

Lemma run_queue_cons (task : EnsureOfferPublishedTask)
    (rest : list EnsureOfferPublishedTask) (w : World) :
  run_queue (task :: rest) w
  = (settled (run_queue rest (world_after (pushed task w))),
     world_after (run_queue rest (world_after (pushed task w))),
     (calls (pushed task w)
      ++ calls (run_queue rest (world_after (pushed task w))))%list).
Proof.
  simpl. unfold and_then.
  destruct (pushed_run task w) as (Hp & _).
  destruct (pushed task w) as [[r w1] t1].
  unfold settled, world_after, calls in *. simpl in *. subst r.
  by destruct (run_queue rest w1) as [[r2 w2] t2].
Qed.

Lemma run_queue_cons_world (task : EnsureOfferPublishedTask)
    (rest : list EnsureOfferPublishedTask) (w : World) :
  world_after (run_queue (task :: rest) w)
  = world_after (run_queue rest (world_after (pushed task w))).
Proof. by rewrite run_queue_cons. Qed.

Lemma run_queue_cons_calls (task : EnsureOfferPublishedTask)
    (rest : list EnsureOfferPublishedTask) (w : World) :
  calls (run_queue (task :: rest) w)
  = (calls (pushed task w)
     ++ calls (run_queue rest (world_after (pushed task w))))%list.
Proof. by rewrite run_queue_cons. Qed.

Lemma pushed_frame (task : EnsureOfferPublishedTask) (w : World) :
  steam (world_after (pushed task w)) = steam w
  ∧ channel (world_after (pushed task w)) = channel w
  ∧ sent (pollData (world_after (pushed task w))) = sent (pollData w)
  ∧ received (pollData (world_after (pushed task w))) = received (pollData w).
Proof. unfold pushed, catch. worker_paths task w; done. Qed.

Lemma frame_keeps_health (w w' : World) :
  steam w' = steam w → channel w' = channel w →
  sent (pollData w') = sent (pollData w) →
  received (pollData w') = received (pollData w) →
  (∀ k, fetch_reply w' k = fetch_reply w k)
  ∧ (∀ k, cheap_state (pollData w') k = cheap_state (pollData w) k).
Proof.
  intros Hs Hc Hse Hre. unfold fetch_reply, cheap_state.
  rewrite Hs, Hse, Hre. done.
Qed.

(** The tasks a pushed task leaves published stay published. *)
Lemma pushed_keeps_published (task : EnsureOfferPublishedTask) (w : World)
    (k : string) :
  engine_consistent w →
  already_published (pollData w) k = true →
  already_published (pollData (world_after (pushed task w))) k = true.
Proof.
  intros Hcons Hk. unfold pushed, catch.
  worker_paths task w; try done.
  apply already_published_spec. apply already_published_spec in Hk.
  destruct Hk as (c & Hc & Hm). exists c. split; [done |].
  rewrite read_write_published_ne; [done |].
  rewrite (Hcons _ _ H0). intros <-.
  assert (already_published (pollData w) (task_id task) = true); [| congruence].
  apply already_published_spec. eauto.
Qed.

(** A pushed task whose offer the poll data knows leaves it published. *)
Lemma pushed_publishes (task : EnsureOfferPublishedTask) (w : World)
    (c : ETradeOfferState) :
  channel_open w → engine_consistent w → poll_data_current w →
  cheap_state (pollData w) (task_id task) = Some c →
  already_published (pollData (world_after (pushed task w))) (task_id task)
  = true.
Proof.
  intros Hopen Hcons Hcur Hc.
  destruct (Hcur _ _ Hc) as (o & Ho & Hstate).
  unfold pushed, catch. worker_paths task w; try done.
  - congruence.
  - rewrite Ho in H0. injection H0 as <-.
    apply already_published_spec. exists c. split; [done |].
    rewrite <- (Hcons _ _ Ho). congruence.
  - rewrite Ho in H0. injection H0 as <-.
    apply already_published_spec. exists c. split; [done |].
    rewrite <- (Hcons _ _ Ho), <- Hstate. apply read_write_published.
  - by rewrite Hopen in H3.
Qed.

Lemma run_queue_marks (tasks : list EnsureOfferPublishedTask) (w : World) :
  channel_open w → engine_consistent w → poll_data_current w →
  let w' := world_after (run_queue tasks w) in
  sent (pollData w') = sent (pollData w)
  ∧ received (pollData w') = received (pollData w)
  ∧ steam w' = steam w
  ∧ channel w' = channel w
  ∧ (∀ k, already_published (pollData w) k = true →
          already_published (pollData w') k = true)
  ∧ (∀ task, task ∈ tasks →
       cheap_state (pollData w) (task_id task) ≠ None →
       already_published (pollData w') (task_id task) = true).
Proof.
  revert w. induction tasks as [|t rest IH]; intros w Hopen Hcons Hcur.
  { cbv zeta. unfold world_after. simpl. repeat split; try done.
    intros task Hin. by apply elem_of_nil in Hin. }
  cbv zeta. rewrite run_queue_cons_world.
  destruct (pushed_frame t w) as (F1 & F2 & F3 & F4).
  destruct (frame_keeps_health w _ F1 F2 F3 F4) as (Hfr & Hch).
  set (w1 := world_after (pushed t w)) in *.
  assert (Hopen1 : channel_open w1) by (intros k; by rewrite F2).
  assert (Hcons1 : engine_consistent w1)
    by (intros k o; rewrite Hfr; apply Hcons).
  assert (Hcur1 : poll_data_current w1).
  { intros k c. rewrite Hch, Hfr. apply Hcur. }
  destruct (IH w1 Hopen1 Hcons1 Hcur1) as (I1 & I2 & I3 & I4 & I5 & I6).
  repeat split; try congruence.
  - intros k Hk. apply I5. by apply pushed_keeps_published.
  - intros task Hin Hknown.
    apply elem_of_cons in Hin as [-> | Hin].
    + apply I5. destruct (cheap_state (pollData w) (task_id t)) eqn:Hc; [| done].
      by apply (pushed_publishes t w e).
    + apply I6; [done |]. by rewrite Hch.
Qed.

(** A sweep of offers that are all published does nothing. *)
Lemma run_queue_noop (tasks : list EnsureOfferPublishedTask) (w : World) :
  (∀ task, task ∈ tasks →
           already_published (pollData w) (task_id task) = true) →
  run_queue tasks w = (Resolved tt, w, []).
Proof.
  induction tasks as [|t rest IH]; intros Hall; [done |].
  rewrite run_queue_cons.
  assert (Ht : pushed t w = (Resolved tt, w, [])).
  { unfold pushed, catch. rewrite ensureOfferPublished_run.
    rewrite Hall; [done | apply list_elem_of_here]. }
  rewrite Ht. change (world_after (Resolved tt, w, [])) with w.
  rewrite IH; [done |].
  intros task Hin. apply Hall. by apply list_elem_of_further.
Qed.

Lemma sweep_tasks_known (pd : PollData) (k : string) :
  mkTask k ∈ sweep_tasks pd ↔ cheap_state pd k ≠ None.
Proof.
  unfold sweep_tasks, cheap_state, nullish.
  rewrite list_elem_of_fmap. split.
  - intros (k' & [= <-] & Hin).
    apply elem_of_app in Hin as [Hin | Hin]; apply object_keys_dom in Hin;
      apply elem_of_dom in Hin as [v Hv].
    + by rewrite Hv.
    + rewrite Hv. by destruct (sent pd !! k).
  - intros Hk. exists k. split; [done |].
    apply elem_of_app.
    destruct (sent pd !! k) as [v|] eqn:Hs.
    + left. apply object_keys_dom, elem_of_dom. eauto.
    + right. apply object_keys_dom, elem_of_dom.
      destruct (received pd !! k); [eauto | done].
Qed.

(** X9: with the channel accepting everything, the poll data up to date and
    the engine answering with the offers asked for, one sweep over the ids
    of the poll data leaves every such offer marked with its state, and the
    next sweep does nothing at all. *)
Theorem sweep_converges (w : World) :
  channel_open w → engine_consistent w → poll_data_current w →
  let w1 := world_after (run_queue (sweep_tasks (pollData w)) w) in
  (∀ k c, cheap_state (pollData w) k = Some c →
          read_published (pollData w1) k = Some c)
  ∧ run_queue (sweep_tasks (pollData w1)) w1 = (Resolved tt, w1, []).
Proof.
  intros Hopen Hcons Hcur w1.
  destruct (run_queue_marks (sweep_tasks (pollData w)) w Hopen Hcons Hcur)
    as (I1 & I2 & I3 & I4 & I5 & I6).
  fold w1 in I1, I2, I3, I4, I5, I6.
  destruct (frame_keeps_health w w1 I3 I4 I1 I2) as (Hfr & Hch).
  assert (Hall : ∀ k, cheap_state (pollData w) k ≠ None →
                      already_published (pollData w1) k = true).
  { intros k Hk. apply (I6 (mkTask k)); [| done]. by apply sweep_tasks_known. }
  split.
  - intros k c Hc.
    assert (Hk : cheap_state (pollData w) k ≠ None) by congruence.
    apply Hall, already_published_spec in Hk as (c' & Hc' & Hm).
    fold (cheap_state (pollData w1) k) in Hc'. rewrite Hch in Hc'. congruence.
  - apply run_queue_noop. intros [k] Hin. simpl.
    apply sweep_tasks_known in Hin. rewrite Hch in Hin. by apply Hall.
Qed.

Lemma sample_world_consistent : engine_consistent (sample_world channel_up).
Proof.
  intros k offer. unfold fetch_reply. simpl.
  destruct (decide (k = "5001")) as [-> | H1];
    [by intros [= <-] |].
  destruct (decide (k = "5002")) as [-> | H2];
    [by intros [= <-] |].
  rewrite lookup_insert_ne, lookup_singleton_ne by done. done.
Qed.

Lemma sample_world_current : poll_data_current (sample_world channel_up).
Proof.
  intros k c. unfold cheap_state, fetch_reply. simpl.
  destruct (decide (k = "5001")) as [-> | H1].
  { intros [= <-]. by exists incoming_offer. }
  destruct (decide (k = "5002")) as [-> | H2].
  { intros [= <-]. by exists accepted_offer. }
  rewrite !lookup_singleton_ne by done. done.
Qed.

Lemma sweep_converges_sample :
  let w := sample_world channel_up in
  let w1 := world_after (run_queue (sweep_tasks (pollData w)) w) in
  read_published (pollData w1) "5001" = Some Active
  ∧ read_published (pollData w1) "5002" = Some Accepted
  ∧ run_queue (sweep_tasks (pollData w1)) w1 = (Resolved tt, w1, []).
Proof.
  destruct (sweep_converges (sample_world channel_up)) as (Hm & Hnoop).
  - by intros k.
  - apply sample_world_consistent.
  - apply sample_world_current.
  - cbv zeta. split; [by apply Hm |]. split; [by apply Hm | exact Hnoop].
Defined.

Lemma attempted_app (t1 t2 : list Action) :
  attempted (t1 ++ t2) = (attempted t1 ++ attempted t2)%list.
Proof. apply omap_app. Qed.

(** What a pushed task hands to the channel and asks of the engine. *)
Lemma pushed_calls (task : EnsureOfferPublishedTask) (w : World) :
  (filter (fun a => is_fetch a = true) (calls (pushed task w)) = []
   ∨ filter (fun a => is_fetch a = true) (calls (pushed task w))
     = [CallGetOffer (task_id task)])
  ∧ (attempted (calls (pushed task w)) = []
     ∨ ∃ offer e, fetch_reply w (task_id task) = inr offer
                  ∧ attempted (calls (pushed task w)) = [e]
                  ∧ id (event_offer e) = o_id offer).
Proof.
  unfold pushed, catch, logger.
  worker_paths task w; (split; [by auto |]); try (by left).
  - right. exists offer, e. repeat split; try done.
    destruct (publish_one_call offer
                (read_published (pollData w) (o_id offer))) as (e' & He' & Ho).
    rewrite He' in H2. apply eventsService_publish_inj in H2 as <-.
    by rewrite Ho.
  - right. exists offer, e. repeat split; try done.
    destruct (publish_one_call offer
                (read_published (pollData w) (o_id offer))) as (e' & He' & Ho).
    rewrite He' in H2. apply eventsService_publish_inj in H2 as <-.
    by rewrite Ho.
Qed.

(** X10: a sweep asks the engine for each task at most once and hands the
    channel at most one event per task, in the order of the tasks; with the
    engine answering with the offers asked for, the events are for the
    offers of their tasks, so that no offer gets two events in a sweep of
    distinct ids. *)
Theorem sweep_one_event_per_task
    (tasks : list EnsureOfferPublishedTask) (w : World) :
  let t := calls (run_queue tasks w) in
  filter (fun a => is_fetch a = true) t
    `sublist_of` (CallGetOffer <$> (task_id <$> tasks))
  ∧ (length (attempted t) ≤ length tasks)%nat
  ∧ (engine_consistent w →
       event_ids t `sublist_of` (task_id <$> tasks)
       ∧ (NoDup (task_id <$> tasks) → NoDup (event_ids t))).
Proof.
  cbv zeta.
  assert (H : filter (fun a => is_fetch a = true) (calls (run_queue tasks w))
                `sublist_of` (CallGetOffer <$> (task_id <$> tasks))
              ∧ (length (attempted (calls (run_queue tasks w)))
                 ≤ length tasks)%nat
              ∧ (engine_consistent w →
                   event_ids (calls (run_queue tasks w))
                     `sublist_of` (task_id <$> tasks))).
  { revert w. induction tasks as [|task rest IH]; intros w.
    { unfold calls, event_ids. simpl. repeat split; try done. }
    rewrite run_queue_cons_calls.
    destruct (pushed_frame task w) as (F1 & F2 & F3 & F4).
    destruct (frame_keeps_health w _ F1 F2 F3 F4) as (Hfr & _).
    destruct (IH (world_after (pushed task w))) as (I1 & I2 & I3).
    destruct (pushed_calls task w) as (Hf & Ha).
    unfold event_ids. rewrite filter_app, attempted_app, length_app, fmap_app.
    rewrite !fmap_cons.
    split; [| split].
    - destruct Hf as [-> | ->]; simpl.
      + by apply sublist_cons.
      + by apply sublist_skip.
    - destruct Ha as [-> | (o & e & _ & -> & _)]; simpl; lia.
    - intros Hcons.
      assert (Hcons1 : engine_consistent (world_after (pushed task w)))
        by (intros k o; rewrite Hfr; apply Hcons).
      specialize (I3 Hcons1).
      destruct Ha as [-> | (o & e & Ho & -> & He)]; simpl.
      + by apply sublist_cons.
      + rewrite He, (Hcons _ _ Ho). by apply sublist_skip. }
  destruct H as (H1 & H2 & H3).
  repeat split; try done.
  - by apply H3.
  - intros Hnd. exact (sublist_NoDup _ _ Hnd (H3 H)).
Qed.

(** ** More on the debounce *)

Lemma sweep_count_sweep (s : Service) :
  sweep_count (sweep s) = S (sweep_count s) ∧ timers (sweep s) = timers s.
Proof.
  unfold sweep_count, sweep. simpl.
  rewrite filter_app, length_app. simpl. split; [lia | done].
Qed.

Lemma sweeps_of_due (due : list (nat * Z)) (s : Service) :
  sweep_count (foldl (fun acc _ => sweep acc) s due)
  = (sweep_count s + length due)%nat
  ∧ timers (foldl (fun acc _ => sweep acc) s due) = timers s.
Proof.
  revert s. induction due as [|d due IH]; intros s; simpl; [split; [lia | done] |].
  destruct (IH (sweep s)) as (-> & ->).
  destruct (sweep_count_sweep s) as (-> & ->). split; [lia | done].
Qed.

Lemma filter_split_length {A} (P : A → Prop) `{∀ x, Decision (P x)}
    (l : list A) :
  (length (filter P l) + length (filter (fun x => ¬ P x) l))%nat = length l.
Proof.
  induction l as [|x l IH]; [done |].
  rewrite !filter_cons. repeat case_decide; simpl; try lia; tauto.
Qed.

(** Moving the clock turns pending timeouts into sweeps, one for one. *)
Lemma advance_balance (t : Z) (s : Service) :
  (sweep_count (advance t s) + length (timers (advance t s)))%nat
  = (sweep_count s + length (timers s))%nat.
Proof.
  unfold advance.
  match goal with
  | |- context [foldl _ ?s1 ?due] => destruct (sweeps_of_due due s1) as (-> & ->)
  end.
  simpl.
  pose proof (filter_split_length (fun x : nat * Z => x.2 ≤ t) (timers s)).
  unfold sweep_count at 1. simpl. fold (sweep_count s). lia.
Qed.

Lemma ensurePollData_balance (s : Service) :
  sweep_count (ensurePollData s) = sweep_count s
  ∧ (length (timers (ensurePollData s)) ≤ S (length (timers s)))%nat.
Proof.
  unfold ensurePollData. split.
  - by destruct (ensurePollDataTimeout s).
  - destruct (ensurePollDataTimeout s) as [h|]; simpl;
      rewrite length_app; simpl.
    + pose proof (length_filter (fun t : nat * Z => t.1 ≠ h) (timers s)). lia.
    + lia.
Qed.

Lemma run_calls_balance (ts : list Z) (s : Service) :
  (sweep_count (run_calls ts s) + length (timers (run_calls ts s))
   ≤ sweep_count s + length (timers s) + length ts)%nat.
Proof.
  revert s. induction ts as [|t ts IH]; intros s; [simpl; lia |].
  change (run_calls (t :: ts) s) with (run_calls ts (pollData_event t s)).
  specialize (IH (pollData_event t s)).
  unfold pollData_event in *.
  destruct (ensurePollData_balance (advance t s)) as (Hc & Hl).
  pose proof (advance_balance t s). simpl. lia.
Qed.

(** X11: whatever the times of the calls, no more sweeps fire than there
    were calls of [ensurePollData] and timeouts pending before them. *)
Theorem sweeps_bounded_by_calls (ts : list Z) (T : Z) (s : Service) :
  (sweep_count (advance T (run_calls ts s))
   ≤ sweep_count s + length (timers s) + length ts)%nat.
Proof.
  pose proof (advance_balance T (run_calls ts s)).
  pose proof (run_calls_balance ts s). lia.
Qed.

Lemma first_call_pending (t : Z) (s : Service) :
  timers s = [] → now s ≤ t →
  pending_at t (pollData_event t s)
  ∧ sweep_count (pollData_event t s) = sweep_count s.
Proof.
  intros Ht Hnow.
  destruct (first_call_waits t s Ht Hnow) as (H1 & H2 & _ & H4 & _).
  split; [by split |]. unfold sweep_count. by rewrite H4.
Qed.

Lemma spaced_call_fires (t0 t : Z) (s : Service) :
  pending_at t0 s → t0 + 1000 ≤ t →
  pending_at t (pollData_event t s)
  ∧ sweep_count (pollData_event t s) = S (sweep_count s).
Proof.
  intros (Hnow & h & Ht & He) Hle.
  unfold pollData_event, ensurePollData, advance, pending_at, sweep_count.
  rewrite Ht. rewrite !filter_cons, !filter_nil. simpl.
  repeat case_decide; try lia. simpl. rewrite He. simpl.
  split.
  - split; [lia |]. exists (next_handle s). split; [| done].
    do 2 f_equal. lia.
  - rewrite filter_app, length_app. simpl. lia.
Qed.

Lemma spaced_calls_count (ts : list Z) (t0 : Z) (s : Service) :
  pending_at t0 s → spaced t0 ts →
  pending_at (List.last ts t0) (run_calls ts s)
  ∧ sweep_count (run_calls ts s) = (sweep_count s + length ts)%nat.
Proof.
  revert t0 s. induction ts as [|t ts IH]; intros t0 s Hp Hs.
  { simpl. split; [done | lia]. }
  destruct Hs as (Hle & Hs).
  change (run_calls (t :: ts) s) with (run_calls ts (pollData_event t s)).
  rewrite last_cons_default.
  destruct (spaced_call_fires t0 t s Hp Hle) as (Hp1 & Hc1).
  destruct (IH t (pollData_event t s) Hp1 Hs) as (Hp2 & Hc2).
  split; [done |]. rewrite Hc2, Hc1. simpl. lia.
Qed.

(** X12: calls of [ensurePollData] that come at least 1000 ms apart are not
    coalesced: once the last timeout is due, as many sweeps have fired as
    there were calls. *)
Theorem spaced_calls_fire_each (s : Service) (t1 : Z) (ts : list Z) (T : Z) :
  timers s = [] →
  now s ≤ t1 →
  spaced t1 ts →
  List.last ts t1 + 1000 ≤ T →
  sweep_count (advance T (run_calls (t1 :: ts) s))
  = (sweep_count s + S (length ts))%nat
  ∧ timers (advance T (run_calls (t1 :: ts) s)) = [].
Proof.
  intros Ht Hnow Hs HT.
  change (run_calls (t1 :: ts) s) with (run_calls ts (pollData_event t1 s)).
  destruct (first_call_pending t1 s Ht Hnow) as (Hp & Hc).
  destruct (spaced_calls_count ts t1 _ Hp Hs) as ((Hn & h & Htm & He) & Hc2).
  set (s' := run_calls ts (pollData_event t1 s)) in *.
  unfold advance, sweep_count in *. rewrite Htm.
  rewrite !filter_cons, !filter_nil. simpl.
  repeat case_decide; try lia. simpl.
  rewrite filter_app, length_app. simpl. split; [lia | done].
Qed.

Lemma spaced_calls_fire_each_sample :
  sweep_count (advance 5000 (run_calls [0; 1000; 2500]
                               (new_service (pollData (sample_world channel_up)))))
  = 3%nat.
Proof.
  destruct (spaced_calls_fire_each
              (new_service (pollData (sample_world channel_up)))
              0 [1000; 2500] 5000) as (H & _).
  - reflexivity.
  - simpl. lia.
  - simpl. lia.
  - simpl. lia.
  - exact H.
Defined.

(** ** More on the API operations *)

Ltac api_unfold :=
  unfold getTrade, createTrade, acceptConfirmation, removeTrade, _getTrade,
    and_then, catch, manager_getOffer, offer_send, offer_cancel,
    community_acceptConfirmationForObject, manager_doPoll, logger, reject,
    resolve, settled, world_after, calls;
  cbv beta iota.

Ltac api_cases :=
  repeat (match goal with
          | |- context [fetch_reply ?w ?k] => destruct (fetch_reply w k) eqn:?
          | |- context [send_reply ?w ?d] => destruct (send_reply w d) eqn:?
          | |- context [confirm_reply ?w ?k] =>
              destruct (confirm_reply w k) eqn:?
          | |- context [String.eqb ?a ?b] => destruct (String.eqb a b) eqn:?
          | |- context [state_eqb ?a ?b && ?c] =>
              destruct (state_eqb a b && c) eqn:?
          | |- context [cancel_reply ?w ?o] => destruct (cancel_reply w o) eqn:?
          | |- context [err_eresult ?e] => destruct (err_eresult e) eqn:?
          end; cbv beta iota).

(** X13: [removeTrade] resolves exactly when the engine knows the offer, its
    state is not Active and the cancellation succeeds; it then resolves with
    the snapshot of the offer as the engine left it. *)
Theorem removeTrade_resolves_iff (offer_id : string) (w : World)
    (t : TradeOffer) :
  settled (removeTrade offer_id w) = Resolved t ↔
    ∃ offer cancelled,
      fetch_reply w offer_id = inr offer
      ∧ o_state offer ≠ Active
      ∧ cancel_reply w offer = inr cancelled
      ∧ t = mapOffer cancelled.
Proof.
  api_unfold.
  destruct (fetch_reply w offer_id) as [err|offer] eqn:Hf.
  { destruct (String.eqb (err_message err) "NoMatch"); simpl;
      (split; [done | by intros (? & ? & ? & _)]). }
  fold (removal_blocked (o_state offer)).
  destruct (removal_blocked (o_state offer)) eqn:Hg.
  { apply removal_blocked_iff in Hg. simpl.
    split; [done |]. intros (o & c & [= <-] & Hne & _). done. }
  assert (Hne : o_state offer ≠ Active).
  { intros Ha. apply removal_blocked_iff in Ha. congruence. }
  destruct (cancel_reply w offer) as [cerr|cancelled] eqn:Hc.
  - destruct (String.eqb (err_message cerr) _); [| destruct (err_eresult cerr)];
      simpl; (split; [done |]);
      intros (o & c & [= <-] & _ & Hc' & _); congruence.
  - simpl. split.
    + intros [= <-]. by exists offer, cancelled.
    + intros (o & c & [= <-] & _ & Hc' & ->). congruence.
Qed.

(** X14: [createTrade] resolves exactly when sending the offer succeeds, with
    the snapshot of the sent offer. *)
Theorem createTrade_resolves_iff (dto : CreateTradeDto) (w : World)
    (t : TradeOffer) :
  settled (createTrade dto w) = Resolved t ↔
    ∃ offer, send_reply w dto = inr offer ∧ t = mapOffer offer.
Proof.
  api_unfold.
  destruct (send_reply w dto) as [err|offer] eqn:Hs.
  - destruct (String.eqb (err_message err) _); [| destruct (err_eresult err)];
      simpl; (split; [done | by intros (? & ? & _)]).
  - simpl. split.
    + intros [= <-]. by exists offer.
    + by intros (o & [= <-] & ->).
Qed.

(** X15: [acceptConfirmation] asks the engine to poll exactly when the
    confirmation was accepted, as its last call; when it was not, it stops
    at the error log and asks for no poll. *)
Theorem acceptConfirmation_polls_iff_confirmed (offer_id : string) (w : World) :
  let t := calls (acceptConfirmation offer_id w) in
  (CallDoPoll ∈ t ↔ confirm_reply w offer_id = None)
  ∧ (confirm_reply w offer_id = None →
       t = [Log LvlLog "Accepting confirmation for offer #" None;
            CallAcceptConfirmation offer_id;
            Log LvlLog "Accepted confirmation for offer #" None;
            CallDoPoll])
  ∧ (∀ err, confirm_reply w offer_id = Some err →
       ∃ e, t = [Log LvlLog "Accepting confirmation for offer #" None;
                 CallAcceptConfirmation offer_id;
                 Log LvlError "Error while accepting confirmation for "
                   (Some e)]).
Proof.
  cbv zeta. api_unfold.
  destruct (confirm_reply w offer_id) as [err|] eqn:Hc.
  - destruct (String.eqb (err_message err) _); simpl;
      (split; [| split; [done | eauto]]);
      (split; [| done]); intros Hin;
      repeat (apply elem_of_cons in Hin as [Hin | Hin]; [done |]);
      by apply elem_of_nil in Hin.
  - simpl. split; [| split; [done | done]].
    split; [done |]. intros _. do 3 apply list_elem_of_further.
    apply list_elem_of_here.
Qed.

(** X16: [getTrade] resolves exactly when the engine knows the offer, with
    its snapshot, after one fetch and nothing else; for an id the engine
    does not know it rejects with the bad request "Trade offer not found". *)
Theorem getTrade_resolves_iff (offer_id : string) (w : World) (t : TradeOffer) :
  (settled (getTrade offer_id w) = Resolved t ↔
     ∃ offer, fetch_reply w offer_id = inr offer ∧ t = mapOffer offer)
  ∧ (steam w !! offer_id = None →
       settled (getTrade offer_id w)
       = Rejected (BadRequestException "Trade offer not found"))
  ∧ (∀ offer, fetch_reply w offer_id = inr offer →
       calls (getTrade offer_id w) = [CallGetOffer offer_id]).
Proof.
  split; [| split].
  - api_unfold.
    destruct (fetch_reply w offer_id) as [err|offer] eqn:Hf.
    + destruct (String.eqb (err_message err) "NoMatch"); simpl;
        (split; [done | by intros (? & ? & _)]).
    + simpl. split.
      * intros [= <-]. by exists offer.
      * by intros (o & [= <-] & ->).
  - intros Hs. api_unfold. unfold fetch_reply. rewrite Hs. done.
  - intros offer Hf. api_unfold. by rewrite Hf.
Qed.


(** X18: a rejected API operation has logged, as its last call, an error
    entry with the very error it rejects with. *)
Theorem api_rejections_are_logged
    (offer_id : string) (dto : CreateTradeDto) (w : World) (e : Exn) :
  (settled (getTrade offer_id w) = Rejected e →
     List.last (calls (getTrade offer_id w)) CallDoPoll
     = Log LvlError "Error getting trade offer: " (Some e))
  ∧ (settled (createTrade dto w) = Rejected e →
       List.last (calls (createTrade dto w)) CallDoPoll
       = Log LvlError "Got an error while sending trade offer: " (Some e))
  ∧ (settled (removeTrade offer_id w) = Rejected e →
       List.last (calls (removeTrade offer_id w)) CallDoPoll
       = Log LvlError "Error while removing trade offer #" (Some e)).
Proof.
  repeat split; api_unfold; api_cases; simpl; intros [= <-]; done.
Qed.

(** X19: an engine error that carries an eresult code e and is no special
    case is turned into the EResultException of that code by [createTrade]
    and by the cancellation of [removeTrade], while [getTrade] and the fetch
    of [removeTrade] reject with the engine's error as it is. *)
Theorem eresult_wrapping
    (offer_id : string) (dto : CreateTradeDto) (w : World)
    (err : JsError) (code : Z) :
  err_eresult err = Some code →
  (send_reply w dto = inl err →
   err_message err ≠ "Cannot send an empty trade offer" →
   settled (createTrade dto w)
   = Rejected (EResultException (err_message err) code))
  ∧ (∀ offer, fetch_reply w offer_id = inr offer → o_state offer ≠ Active →
       cancel_reply w offer = inl err →
       err_message err ≠ "Offer #" +:+ o_id offer +:+
         " is not active, so it may not be cancelled or declined" →
       settled (removeTrade offer_id w)
       = Rejected (EResultException (err_message err) code))
  ∧ (fetch_reply w offer_id = inl err → err_message err ≠ "NoMatch" →
       settled (getTrade offer_id w) = Rejected (RawError err)
       ∧ settled (removeTrade offer_id w) = Rejected (RawError err)).
Proof.
  intros Hcode. split; [| split].
  - intros Hs Hmsg. api_unfold. rewrite Hs.
    apply String.eqb_neq in Hmsg. rewrite Hmsg, Hcode. done.
  - intros offer Hf Hstate Hc Hmsg. api_unfold. rewrite Hf.
    fold (removal_blocked (o_state offer)).
    destruct (removal_blocked (o_state offer)) eqn:Hg.
    { by apply removal_blocked_iff in Hg. }
    rewrite Hc. apply String.eqb_neq in Hmsg. rewrite Hmsg, Hcode. done.
  - intros Hf Hmsg. apply String.eqb_neq in Hmsg.
    split; api_unfold; rewrite Hf, Hmsg; done.
Qed.

Lemma eresult_wrapping_sample :
  settled (createTrade (mkDto "76561198000000001" None None [] [])
             unconfirmed_world)
  = Rejected (EResultException "Limit Exceeded" 25).
Proof.
  destruct (eresult_wrapping "5002" (mkDto "76561198000000001" None None [] [])
              unconfirmed_world (mkError "Limit Exceeded" (Some 25)) 25
              eq_refl) as (H & _).
  apply H; [reflexivity | discriminate].
Defined.

(** ** Listing the offers *)

(** X20: [getTrades] answers with the snapshots of the engine's offers, in
    the engine's order on both sides, and rejects with the engine's own
    error, logged, when the engine reports one; it leaves the world as it
    was. *)
Theorem getTrades_keeps_order
    (reply : JsError + list Offer * list Offer) (w : World) :
  world_after (getTrades reply w) = w
  ∧ (∀ sent_offers received_offers,
       reply = inr (sent_offers, received_offers) →
       ∃ resp, settled (getTrades reply w) = Resolved resp
               ∧ id <$> gt_sent resp = o_id <$> sent_offers
               ∧ id <$> gt_received resp = o_id <$> received_offers
               ∧ (∀ i, gt_sent resp !! i = mapOffer <$> sent_offers !! i)
               ∧ (∀ i, gt_received resp !! i
                       = mapOffer <$> received_offers !! i))
  ∧ (∀ err, reply = inl err →
       settled (getTrades reply w) = Rejected (RawError err)
       ∧ calls (getTrades reply w)
         = [Log LvlError "Error getting trades: " (Some (RawError err))]).
Proof.
  unfold getTrades, catch, and_then, logger, reject, resolve, settled,
    world_after, calls.
  destruct reply as [err | [s r]]; simpl.
  - split; [done |]. split; [done |]. by intros e [= <-].
  - split; [done |]. split; [| done].
    intros s' r' [= <- <-]. eexists. split; [done |]. simpl.
    rewrite <- !list_fmap_compose.
    repeat split; try done; intros i; by rewrite list_lookup_fmap.
Qed.

(** ** Times of the snapshot *)

(** X21: the snapshot keeps the order of the offer's dates: whole seconds
    never put a later date before an earlier one. *)
Theorem mapOffer_keeps_time_order (offer : Offer) :
  (o_created offer ≤ o_updated offer →
   createdAt (mapOffer offer) ≤ updatedAt (mapOffer offer))
  ∧ (o_updated offer ≤ o_expires offer →
     updatedAt (mapOffer offer) ≤ expiresAt (mapOffer offer))
  ∧ (o_created offer ≤ o_expires offer →
     createdAt (mapOffer offer) ≤ expiresAt (mapOffer offer))
  ∧ (∀ ms, o_escrowEnds offer = Some ms → o_updated offer ≤ ms →
       ∃ s, escrowEndsAt (mapOffer offer) = Some s
            ∧ updatedAt (mapOffer offer) ≤ s).
Proof.
  simpl. unfold epoch_seconds.
  repeat split; try (intros; apply Z.div_le_mono; lia).
  intros ms -> Hle. eexists. split; [done |]. apply Z.div_le_mono; lia.
Qed.

(** ** A stream of live notifications *)

Lemma run_live_cons (n : LiveNotification) (rest : list LiveNotification)
    (w : World) :
  run_live (n :: rest) w
  = (settled (run_live rest (world_after (on_live n w))),
     world_after (run_live rest (world_after (on_live n w))),
     (calls (on_live n w)
      ++ calls (run_live rest (world_after (on_live n w))))%list).
Proof.
  simpl. unfold and_then.
  pose proof (publishOffer_resolves (live_offer n) (live_oldState n) w) as Hp.
  rewrite <- on_live_publishOffer in Hp.
  destruct (on_live n w) as [[r w1] t1].
  unfold settled, world_after, calls in *. simpl in *. subst r.
  by destruct (run_live rest w1) as [[r2 w2] t2].
Qed.

(** X22: with the channel accepting everything, after a stream of live
    notifications every marker holds the state of the last notification
    about its offer (and is untouched for offers the stream does not
    mention), and one event went out per notification. *)
Theorem live_stream_marks_last_state
    (ns : list LiveNotification) (w : World) (k : string) :
  channel_open w →
  read_published (pollData (world_after (run_live ns w))) k
  = last_state_for k ns (read_published (pollData w) k)
  ∧ length (delivered (calls (run_live ns w))) = length ns.
Proof.
  revert w. induction ns as [|n rest IH]; intros w Hopen; [done |].
  assert (Hw : world_after (run_live (n :: rest) w)
               = world_after (run_live rest (world_after (on_live n w))))
    by by rewrite run_live_cons.
  assert (Hc : calls (run_live (n :: rest) w)
               = (calls (on_live n w)
                  ++ calls (run_live rest (world_after (on_live n w))))%list)
    by by rewrite run_live_cons.
  rewrite Hw, Hc. clear Hw Hc.
  rewrite on_live_publishOffer.
  destruct (publishOffer_run (live_offer n) (live_oldState n) w) as (e & _ & Hrun).
  rewrite Hopen in Hrun. rewrite Hrun.
  set (w1 := set_pollData _ _).
  change (world_after (Resolved tt, w1, [CallPublish e true])) with w1.
  change (calls (Resolved tt, w1, [CallPublish e true]))
    with [CallPublish e true].
  assert (Hopen1 : channel_open w1) by exact Hopen.
  destruct (IH w1 Hopen1) as (-> & Hlen).
  split.
  - unfold last_state_for. simpl. f_equal.
    destruct (decide (o_id (live_offer n) = k)) as [<- | Hne].
    + apply read_write_published.
    + by apply read_write_published_ne.
  - simpl. by rewrite Hlen.
Qed.

Lemma live_stream_marks_last_state_sample :
  let ns := [newOffer incoming_offer;
             receivedOfferChanged (with_state Accepted incoming_offer) Active] in
  read_published (pollData (world_after (run_live ns (sample_world channel_up))))
    "5001"
  = Some Accepted.
Proof.
  destruct (live_stream_marks_last_state
              [newOffer incoming_offer;
               receivedOfferChanged (with_state Accepted incoming_offer) Active]
              (sample_world channel_up) "5001") as (H & _).
  - by intros k.
  - exact H.
Defined.
